(** * NBA picks: resolution, opponent filter and aggregation engine

    A shallow embedding of [helper/formula.py], [helper/percentile.py],
    [helper/gamelog.py] and the resolver of [stats.py].

    Conventions of the embedding
    - a pandas data frame is the list of its rows, in the order delivered;
    - the static roster searches of [nba_api] and the game-log endpoint are
      external: they are section variables of the engine;
    - a Python [raise ValueError(...)] is the [Raise] constructor of
      [result], with one constructor of [ValueError] per message; an
      exception of another kind that a call into [nba_api] can raise is an
      input ([other_exception]) of the front end and of the printers, the
      callers that tell the two kinds apart;
    - every helper fetches the game log itself: where a caller runs several
      helpers, each fetch has its own answer;
    - numbers: the box-score counts are integers ([Z]); means, variances and
      percentiles are exact rationals ([Q]) and the standard deviation, a
      square root, is a real number ([R]); the not-a-number of pandas is the
      constructor [NaN] of [fval]. The one [int64] operation of the
      percentiles, the difference of two neighbours, wraps around as
      [int64] does. Rounding of binary floating point is not part of the
      model. *)

From Stdlib Require Import ZArith QArith Qround Qreals Reals Psatz String Ascii List.
From stdpp Require Import base list sorting gmap strings.
Import ListNotations.

Local Open Scope Z_scope.
Local Open Scope string_scope.
Local Open Scope list_scope.

(** ** Strings: the fragment of [str] the engine uses *)

Module Str.

Definition is_lower (c : ascii) : bool :=
  ((97 <=? nat_of_ascii c) && (nat_of_ascii c <=? 122))%nat.

Definition is_upper (c : ascii) : bool :=
  ((65 <=? nat_of_ascii c) && (nat_of_ascii c <=? 90))%nat.

Definition is_digit (c : ascii) : bool :=
  ((48 <=? nat_of_ascii c) && (nat_of_ascii c <=? 57))%nat.

Definition upper_char (c : ascii) : ascii :=
  if is_lower c then ascii_of_nat (nat_of_ascii c - 32) else c.

Definition lower_char (c : ascii) : ascii :=
  if is_upper c then ascii_of_nat (nat_of_ascii c + 32) else c.

(** [s.upper()] and [s.lower()] on ASCII text. *)
Fixpoint upper (s : string) : string :=
  match s with
  | EmptyString => EmptyString
  | String c s' => String (upper_char c) (upper s')
  end.

Fixpoint lower (s : string) : string :=
  match s with
  | EmptyString => EmptyString
  | String c s' => String (lower_char c) (lower s')
  end.

(** [s.startswith(p)]. *)
Fixpoint startswith (p s : string) : bool :=
  match p, s with
  | EmptyString, _ => true
  | String _ _, EmptyString => false
  | String a p', String b s' => if Ascii.eqb a b then startswith p' s' else false
  end.

(** [p in s]: [p] occurs in [s] at some offset. *)
Fixpoint contains (p s : string) : bool :=
  startswith p s ||
  match s with
  | EmptyString => false
  | String _ s' => contains p s'
  end.

(** A pattern without regular-expression metacharacters: letters, digits
    and spaces only. For such a pattern [re.search] is a plain substring
    search. *)
Definition plain_char (c : ascii) : bool :=
  is_lower c || is_upper c || is_digit c || Ascii.eqb c " "%char.

Fixpoint plain (p : string) : bool :=
  match p with
  | EmptyString => true
  | String c p' => plain_char c && plain p'
  end.

(** [re.search(p, s, flags=re.I)] for a [plain] pattern, which is also
    pandas' [Series.str.contains(p, case=False)] on one cell. *)
Definition search_ignorecase (p s : string) : bool :=
  contains (lower p) (lower s).

(** [sep.join(l)]. *)
Fixpoint join (sep : string) (l : list string) : string :=
  match l with
  | [] => EmptyString
  | [x] => x
  | x :: l' => x ++ sep ++ join sep l'
  end.

End Str.

(** ** Data model *)

(** A row of [players.get_players()]: the code reads ['id'] only. *)
Record Player := mkPlayer {
  player_id : Z;
  player_full_name : string
}.

(** A row of [teams.get_teams()]. *)
Record Team := mkTeam {
  abbreviation : string;
  full_name : string;
  nickname : string
}.

(** The columns of the game log that the engine reads. [MATCHUP] may be
    missing in a row (pandas' NA), the counts are integers. *)
Record GameRecord := mkGame {
  Game_ID : string;
  MATCHUP : option string;
  WL : string;
  PTS : Z;
  REB : Z;
  AST : Z;
  BLK : Z;
  STL : Z;
  FG3M : Z
}.

Inductive Column := cPTS | cREB | cAST | cBLK | cSTL | cFG3M.

(** [df[col]] : one column of the frame, top to bottom. *)
Definition cell (col : Column) (g : GameRecord) : Z :=
  match col with
  | cPTS => PTS g | cREB => REB g | cAST => AST g
  | cBLK => BLK g | cSTL => STL g | cFG3M => FG3M g
  end.

Definition column (col : Column) (df : list GameRecord) : list Z :=
  map (cell col) df.

(** ** Errors *)

(** One constructor per [raise ValueError(f"...")] of the helpers, with the
    values the message interpolates. *)
Inductive ValueError :=
| PlayerNotFound (player_name : string)
| MultiplePlayers (player_name : string) (player_list : list Player)
| TeamNotFound (opponent_team : string)
| MultipleTeamsInfo (opponent_team : string) (team_info : string)
| MultipleTeams (opponent_team : string) (team_list : list Team)
| NoGames (player_name season : string)
| NoGamesVsTeam (player_name opponent_team season : string).

(** The error taxonomy of the design: every message falls in one class. *)
Inductive ErrorKind := NotFound | Ambiguous | NoData.

Definition kind (e : ValueError) : ErrorKind :=
  match e with
  | PlayerNotFound _ | TeamNotFound _ => NotFound
  | MultiplePlayers _ _ | MultipleTeamsInfo _ _ | MultipleTeams _ _ => Ambiguous
  | NoGames _ _ | NoGamesVsTeam _ _ _ => NoData
  end.

Inductive result (A : Type) :=
| Ok (a : A)
| Raise (e : ValueError).
Arguments Ok {A} a.
Arguments Raise {A} e.

(** Sequencing: the first [raise] aborts what follows. With these instances
    [x ← r; k] reads as Python's statement order. *)
#[global] Instance result_ret : MRet result := fun A a => Ok a.
#[global] Instance result_bind : MBind result := fun A B k r =>
  match r with
  | Ok a => k a
  | Raise e => Raise e
  end.

Definition fails_with {A} (r : result A) (k : ErrorKind) : Prop :=
  exists e, r = Raise e /\ kind e = k.

(** Python truthiness of a list; [None] and [[]] are both falsy, so the
    initial [team_list = None] is embedded as the empty list. *)
Definition truthy {A} (l : list A) : bool :=
  match l with [] => false | _ :: _ => true end.

(** ** Numbers *)

(** A float of pandas or numpy over the carrier [A]: not-a-number, or a
    value. *)
Inductive fval (A : Type) :=
| NaN
| Fin (a : A).
Arguments NaN {A}.
Arguments Fin {A} a.

Definition Zsum (l : list Z) : Z := fold_right Z.add 0 l.
Definition Qsum (l : list Q) : Q := fold_right Qplus 0%Q l.

Definition Qof_nat (n : nat) : Q := inject_Z (Z.of_nat n).

(** [Series.mean()]: the sum over the count; NaN on an empty series. *)
Definition mean (values : list Z) : fval Q :=
  match values with
  | [] => NaN
  | _ :: _ => Fin (inject_Z (Zsum values) / Qof_nat (length values))%Q
  end.

(** [Series.std()] is [sqrt] of pandas' [nanvar] with its default
    [ddof = 1]: the divisor is [count - ddof], and the result is NaN as soon
    as [count <= ddof]. *)
Definition ddof : nat := 1.

Definition nanvar (values : list Z) : fval Q :=
  let count := length values in
  if (count <=? ddof)%nat then NaN
  else
    let d := (count - ddof)%nat in
    let avg := (inject_Z (Zsum values) / Qof_nat count)%Q in
    let sqr := map (fun x => (avg - inject_Z x) * (avg - inject_Z x))%Q values in
    Fin (Qsum sqr / Qof_nat d)%Q.

Definition std (values : list Z) : fval R :=
  match nanvar values with
  | NaN => NaN
  | Fin v => Fin (sqrt (Q2R v))
  end.

(** *** [np.percentile], method ['linear'] *)

(** [arr[i]] with Python's negative indices. *)
Definition py_index (arr : list Z) (i : Z) : Z :=
  nth (Z.to_nat (if (i <? 0)%Z then (Z.of_nat (length arr) + i)%Z else i)) arr 0%Z.

(** The stat columns are [int64] arrays: an [int64] result outside
    [[-2^63, 2^63)] wraps around. *)
Definition wrap64 (z : Z) : Z := ((z + 2 ^ 63) mod 2 ^ 64 - 2 ^ 63)%Z.

(** numpy's [_lerp]: [a + (b - a) * t], computed from [b] when [t >= 0.5].
    [subtract(b, a)] is taken on the two [int64] neighbours, before [t]
    turns the product into a float. *)
Definition lerp (a b : Z) (t : Q) : Q :=
  let diff_b_a := inject_Z (wrap64 (b - a)) in
  if Qle_bool (1 # 2) t
  then (inject_Z b - diff_b_a * (1 - t))%Q
  else (inject_Z a + diff_b_a * t)%Q.

(** numpy's [_get_indexes]: the two neighbours of the virtual index; at or
    above the last index both are [-1], the last element. *)
Definition get_indexes (virtual_index : Q) (values_count : nat) : Z * Z :=
  let previous_index := Qfloor virtual_index in
  let next_index := previous_index + 1 in
  if Qle_bool (inject_Z (Z.of_nat values_count - 1)) virtual_index
  then (-1, -1)
  else (previous_index, next_index).

(** [np.percentile(data, q)] for [q] in [[0, 100]] on the values of an
    [int64] column: the virtual index is [(n - 1) * q / 100] in the sorted
    values. Both callers reject an empty frame before they reach it; the
    empty case is NaN here. *)
Definition percentile (data : list Z) (q : Z) : fval Q :=
  let arr := merge_sort Z.le data in
  let values_count := length arr in
  match arr with
  | [] => NaN
  | _ :: _ =>
      let virtual_index := (inject_Z (Z.of_nat values_count - 1) * (q # 100))%Q in
      let '(previous_index, next_index) := get_indexes virtual_index values_count in
      let gamma := (virtual_index - inject_Z previous_index)%Q in
      Fin (lerp (py_index arr previous_index) (py_index arr next_index) gamma)
  end.

Definition feq (x y : fval Q) : Prop :=
  match x, y with
  | NaN, NaN => True
  | Fin a, Fin b => (a == b)%Q
  | _, _ => False
  end.

Definition fle (x y : fval Q) : Prop :=
  match x, y with
  | Fin a, Fin b => (a <= b)%Q
  | _, _ => False
  end.

(** [max(values)]. *)
Definition maximum (x : Z) (l : list Z) : Z := fold_right Z.max x l.


(** ** Opponent filter *)

(** [Series.str.contains(pat, case=False, na=False)] on one cell: a
    missing cell takes the value of [na]. *)
Definition str_contains (pat : string) (na : bool) (c : option string) : bool :=
  match c with
  | None => na
  | Some s => Str.search_ignorecase pat s
  end.

(** [df[df['MATCHUP'].str.contains(opponent_abbrev, case=False, na=False)]]. *)
Definition vs_team (df : list GameRecord) (opponent_abbrev : string)
  : list GameRecord :=
  filter (fun g => str_contains opponent_abbrev false (MATCHUP g) = true) df.

(** ** Aggregation: [formula.py] *)

(** The keys of ['averages'] and ['std_devs'], and the column of each. *)
Inductive StatKey := points | rebounds | assists | blocks | steals | threes.

Definition stat_column (k : StatKey) : Column :=
  match k with
  | points => cPTS | rebounds => cREB | assists => cAST
  | blocks => cBLK | steals => cSTL | threes => cFG3M
  end.

Record Stats := mkStats {
  averages : StatKey -> fval Q;
  std_devs : StatKey -> fval R;
  games_played : nat
}.

(** The dictionary literal both helpers build from their frame. *)
Definition stats_of (df : list GameRecord) : Stats :=
  {| averages := fun k => mean (column (stat_column k) df);
     std_devs := fun k => std (column (stat_column k) df);
     games_played := length df |}.

(** ** Percentiles: [percentile.py] *)

Record Percentiles := mkPercentiles {
  p25th : fval Q;
  p50th : fval Q;
  p75th : fval Q;
  p100th : fval Q
}.

Record PercentileResult := mkPercentileResult {
  percentiles : gmap string Percentiles;
  raw_data : gmap string (list Z);
  pr_player_name : string;
  pr_season : string;
  pr_opponent : option string;
  pr_games_played : nat
}.

Definition stats : list Column := [cPTS; cREB; cAST; cBLK; cSTL].
Definition stat_names : list string :=
  ["points"; "rebounds"; "assists"; "blocks"; "steals"].

(** One turn of [for stat, name in zip(stats, stat_names)]. *)
Definition percentile_step (df : list GameRecord) (res : PercentileResult)
    (sn : Column * string) : PercentileResult :=
  let '(stat, name) := sn in
  let data := column stat df in
  {| percentiles :=
       <[name := {| p25th := percentile data 25;
                    p50th := percentile data 50;
                    p75th := percentile data 75;
                    p100th := percentile data 100 |}]> (percentiles res);
     raw_data := <[name := data]> (raw_data res);
     pr_player_name := pr_player_name res;
     pr_season := pr_season res;
     pr_opponent := pr_opponent res;
     pr_games_played := pr_games_played res |}.

Definition percentile_result (df : list GameRecord)
    (player_name season : string) (opponent : option string)
  : PercentileResult :=
  let res :=
    {| percentiles := ∅; raw_data := ∅;
       pr_player_name := player_name; pr_season := season;
       pr_opponent := opponent; pr_games_played := length df |} in
  fold_left (percentile_step df) (zip stats stat_names) res.

(** ** Coefficient of variation: the printers of [formula.py] and the
    stat card of [stats.py] *)

(** Division is modelled as partial: a zero divisor is Python's
    [ZeroDivisionError]. *)
Inductive arith (A : Type) :=
| Value (a : A)
| ZeroDivisionError.
Arguments Value {A} a.
Arguments ZeroDivisionError {A}.

(** [avg > 0]; a comparison with NaN is false. *)
Definition gt0 (avg : fval Q) : bool :=
  match avg with
  | NaN => false
  | Fin a => negb (Qle_bool a 0)
  end.

Definition truediv (x : fval R) (y : fval Q) : arith (fval R) :=
  match y with
  | NaN => Value NaN
  | Fin b =>
      if Qeq_bool b 0 then ZeroDivisionError
      else Value (match x with
                  | NaN => NaN
                  | Fin a => Fin (a / Q2R b)%R
                  end)
  end.

Definition times100 (x : fval R) : fval R :=
  match x with
  | NaN => NaN
  | Fin a => Fin (100 * a)%R
  end.

(** [100 * (std / avg) if avg > 0 else 0]. *)
Definition cv (std : fval R) (avg : fval Q) : arith (fval R) :=
  if gt0 avg then
    match truediv std avg with
    | Value r => Value (times100 r)
    | ZeroDivisionError => ZeroDivisionError
    end
  else Value (Fin 0%R).

(** ** Resolution *)

Section Engine.

(** [nba_api.stats.static.players] and [teams], and the
    [playergamelog.PlayerGameLog(...).get_data_frames()[0]] fetch for the
    regular season. *)
Variable find_players_by_full_name : string -> list Player.
Variable find_team_by_abbreviation : string -> option Team.
Variable find_teams_by_full_name : string -> list Team.
Variable find_teams_by_nickname : string -> list Team.
Variable PlayerGameLog : Z -> string -> list GameRecord.

(** The opening lines of every helper: resolve the player to an id. *)
Definition find_player (player_name : string) : result Z :=
  let player_list := find_players_by_full_name player_name in
  match player_list with
  | [] => Raise (PlayerNotFound player_name)
  | p :: rest =>
      if (1 <? length player_list)%nat
      then Raise (MultiplePlayers player_name player_list)
      else Ok (player_id p)
  end.

(** The abbreviation stage, shared by the three resolvers. *)
Definition abbreviation_stage (opponent_team : string) : list Team :=
  if (String.length opponent_team <=? 3)%nat then
    match find_team_by_abbreviation (Str.upper opponent_team) with
    | Some team_obj => [team_obj]
    | None => []
    end
  else [].

(** The nickname stage of [formula.py] and [stats.py], with its narrowing
    to exact matches. *)
Definition nickname_stage (opponent_team : string) : list Team :=
  let team_list := find_teams_by_nickname opponent_team in
  if truthy team_list && (1 <? length team_list)%nat then
    let exact_matches :=
      List.filter (fun t => String.eqb (Str.lower (nickname t))
                                       (Str.lower opponent_team)) team_list in
    if truthy exact_matches then exact_matches else team_list
  else team_list.

(** [f"{t['full_name']} ({t['abbreviation']})"]. *)
Definition team_info_of (t : Team) : string :=
  full_name t ++ " (" ++ abbreviation t ++ ")".

(** [formula.py], [get_player_vs_team_stats], lines 122-152. *)
Definition candidates_formula (opponent_team : string) : list Team :=
  let team_list := abbreviation_stage opponent_team in
  let team_list :=
    if negb (truthy team_list)
    then find_teams_by_full_name opponent_team else team_list in
  let team_list :=
    if negb (truthy team_list)
    then nickname_stage opponent_team else team_list in
  team_list.

Definition find_team_formula (opponent_team : string) : result Team :=
  let team_list := candidates_formula opponent_team in
  match team_list with
  | [] => Raise (TeamNotFound opponent_team)
  | t :: _ =>
      if (1 <? length team_list)%nat then
        let team_info := map team_info_of team_list in
        Raise (MultipleTeamsInfo opponent_team (Str.join ", " team_info))
      else Ok t
  end.

(** [percentile.py], [get_player_percentiles_vs_team], lines 209-233. *)
Definition candidates_percentile (opponent_team : string) : list Team :=
  let team_list := abbreviation_stage opponent_team in
  let team_list :=
    if negb (truthy team_list)
    then find_teams_by_nickname opponent_team else team_list in
  let team_list :=
    if negb (truthy team_list)
    then find_teams_by_full_name opponent_team else team_list in
  team_list.

Definition find_team_percentile (opponent_team : string) : result Team :=
  let team_list := candidates_percentile opponent_team in
  match team_list with
  | [] => Raise (TeamNotFound opponent_team)
  | t :: _ =>
      if (1 <? length team_list)%nat
      then Raise (MultipleTeams opponent_team team_list)
      else Ok t
  end.

(** [stats.py], [NBAStatsGUI.find_team_abbreviation]: the cascade of
    [formula.py], returning [None] where the helper raises. *)
Definition find_team_abbreviation (team_input : string) : option string :=
  let team_list := candidates_formula team_input in
  match team_list with
  | [] => None
  | t :: _ => if (1 <? length team_list)%nat then None else Some (abbreviation t)
  end.

(** ** The helpers of [formula.py], [percentile.py] and [gamelog.py] *)

Definition get_player_season_stats (player_name season : string)
  : result Stats :=
  player_id ← find_player player_name;
  let df := PlayerGameLog player_id season in
  if negb (truthy df) then Raise (NoGames player_name season)
  else Ok (stats_of df).

Definition get_player_vs_team_stats (player_name season opponent_team : string)
  : result Stats :=
  player_id ← find_player player_name;
  team ← find_team_formula opponent_team;
  let opponent_abbrev := abbreviation team in
  let df := PlayerGameLog player_id season in
  if negb (truthy df) then Raise (NoGames player_name season)
  else
    let df_vs_team := vs_team df opponent_abbrev in
    if negb (truthy df_vs_team)
    then Raise (NoGamesVsTeam player_name opponent_team season)
    else Ok (stats_of df_vs_team).

Definition get_player_percentiles_season (player_name season : string)
  : result PercentileResult :=
  player_id ← find_player player_name;
  let df := PlayerGameLog player_id season in
  if negb (truthy df) then Raise (NoGames player_name season)
  else Ok (percentile_result df player_name season None).

Definition get_player_percentiles_vs_team
    (player_name season opponent_team : string) : result PercentileResult :=
  player_id ← find_player player_name;
  team ← find_team_percentile opponent_team;
  let opponent_abbrev := abbreviation team in
  let opponent_full_name := full_name team in
  let df := PlayerGameLog player_id season in
  if negb (truthy df) then Raise (NoGames player_name season)
  else
    let df_vs_team := vs_team df opponent_abbrev in
    if negb (truthy df_vs_team)
    then Raise (NoGamesVsTeam player_name opponent_team season)
    else Ok (percentile_result df_vs_team player_name season
               (Some opponent_full_name)).

(** ** Game log: [gamelog.py] *)

Definition get_player_game_log (player_name season : string)
  : result (list GameRecord) :=
  player_id ← find_player player_name;
  let df := PlayerGameLog player_id season in
  if negb (truthy df) then Raise (NoGames player_name season)
  else Ok df.

End Engine.

(** ** A static roster for the examples

    [nba_api] searches its static tables with
    [re.search(pattern, field, flags=re.I)]; for a pattern without
    metacharacters that is [Str.search_ignorecase]. The abbreviation search
    anchors the pattern at both ends, which is equality up to case. *)

Module Roster.

Definition celtics := mkTeam "BOS" "Boston Celtics" "Celtics".
Definition nets := mkTeam "BKN" "Brooklyn Nets" "Nets".
Definition hornets := mkTeam "CHA" "Charlotte Hornets" "Hornets".
Definition pistons := mkTeam "DET" "Detroit Pistons" "Pistons".
Definition warriors := mkTeam "GSW" "Golden State Warriors" "Warriors".
Definition rockets := mkTeam "HOU" "Houston Rockets" "Rockets".
Definition lakers := mkTeam "LAL" "Los Angeles Lakers" "Lakers".

Definition teams : list Team :=
  [celtics; nets; hornets; pistons; warriors; rockets; lakers].

Definition find_teams (field : Team -> string) (pattern : string) : list Team :=
  List.filter (fun t => Str.search_ignorecase pattern (field t)) teams.

Definition find_team_by_abbreviation (abbr : string) : option Team :=
  match List.filter (fun t => String.eqb (Str.lower abbr)
                                         (Str.lower (abbreviation t))) teams with
  | [t] => Some t
  | _ => None
  end.

Definition find_teams_by_full_name : string -> list Team := find_teams full_name.
Definition find_teams_by_nickname : string -> list Team := find_teams nickname.

Definition curry := mkPlayer 201939 "Stephen Curry".
Definition seth := mkPlayer 203552 "Seth Curry".
Definition james := mkPlayer 2544 "LeBron James".

Definition players : list Player := [curry; seth; james].

Definition find_players_by_full_name (pattern : string) : list Player :=
  List.filter (fun p => Str.search_ignorecase pattern (player_full_name p)) players.

Definition game (id : string) (matchup : option string) (pts reb ast : Z)
  : GameRecord :=
  {| Game_ID := id; MATCHUP := matchup; WL := "W";
     PTS := pts; REB := reb; AST := ast; BLK := 1; STL := 2; FG3M := 3 |}.

Definition g1 := game "0022300001" (Some "LAL vs. GSW") 10 7 8.
Definition g2 := game "0022300002" (Some "LAL @ BOS") 20 9 6.
Definition g3 := game "0022300003" (Some "LAL vs. GSW") 30 5 11.
Definition g4 := game "0022300004" None 40 8 9.
Definition g0 := game "0022300005" (Some "LAL @ DEN") 0 0 0.

(** James has four games in 2023-24, one of them without a matchup, and
    a single game in 2022-23; nobody else has any. *)
Definition PlayerGameLog (player_id : Z) (season : string) : list GameRecord :=
  if (player_id =? 2544)%Z then
    if String.eqb season "2023-24" then [g1; g2; g3; g4]
    else if String.eqb season "2022-23" then [g2]
    else []
  else [].

End Roster.

(** ** The cascade in the words of the design

    An ordered list of stages, each a candidate set; the first stage that
    is not empty wins. *)

Fixpoint first_nonempty (stages : list (list Team)) : list Team :=
  match stages with
  | [] => []
  | s :: rest => if truthy s then s else first_nonempty rest
  end.

Definition cascade_spec
    (find_team_by_abbreviation : string -> option Team)
    (find_teams_by_full_name find_teams_by_nickname : string -> list Team)
    (text : string) : list Team :=
  first_nonempty
    [abbreviation_stage find_team_by_abbreviation text;
     find_teams_by_full_name text;
     nickname_stage find_teams_by_nickname text].

(** ** The opponent filter in the words of the design *)

(** [p] occurs in [s] when case is ignored. *)
Definition ci_substring (p s : string) : Prop :=
  exists pre post, Str.lower s = (pre ++ Str.lower p ++ post)%string.

(** The game has a matchup string, and the abbreviation occurs in it. *)
Definition plays (opponent_abbrev : string) (g : GameRecord) : Prop :=
  exists m, MATCHUP g = Some m /\ ci_substring opponent_abbrev m.

(** [selects P df out]: [out] is [df] with exactly the rows outside [P]
    deleted, the others staying where they are. *)
Inductive selects (P : GameRecord -> Prop)
  : list GameRecord -> list GameRecord -> Prop :=
| selects_nil : selects P [] []
| selects_keep g df out : P g -> selects P df out -> selects P (g :: df) (g :: out)
| selects_drop g df out : ~ P g -> selects P df out -> selects P (g :: df) out.

(** ** Linear interpolation in the words of the design

    The value at the fractional rank [h] of the sorted values [arr]: between
    the ranks [floor h] and [floor h + 1], in proportion to the fractional
    part of [h]; the last rank has no successor and stands for itself. *)

Definition rank_value (arr : list Z) (i : Z) : Z := nth (Z.to_nat i) arr 0%Z.

Definition interpolate (arr : list Z) (h : Q) : Q :=
  let k := Qfloor h in
  let k' := Z.min (k + 1) (Z.of_nat (length arr) - 1) in
  (inject_Z (rank_value arr k)
   + inject_Z (rank_value arr k' - rank_value arr k) * (h - inject_Z k))%Q.

(** The fractional rank of the [q]-th percentile among [n] values. *)
Definition rank_of (n : nat) (q : Z) : Q :=
  (inject_Z (Z.of_nat n - 1) * (q # 100))%Q.

(** The values of a column for which no [int64] difference wraps: any two
    of them are less than [2^63] apart. Box-score counts are; so are values
    that all lie in [[-2^62, 2^62)] and values that are all non-negative. *)
Definition differences_fit_int64 (data : list Z) : Prop :=
  forall y z, y ∈ data -> z ∈ data -> (- 2 ^ 63 <= z - y < 2 ^ 63)%Z.


(** A bound on the values that is enough, and that can be computed. *)
Definition in_int62 (z : Z) : bool := ((- 2 ^ 62 <=? z) && (z <? 2 ^ 62))%Z.


(** ** Consistency of a percentile result

    [consistent r n]: the result reports [n] games and, under every stat
    name, ordered percentiles and as many raw values as games reported. *)


(** ** Sample standard deviation in the words of the design

    The sum of squared deviations from the mean over the games minus one,
    under a square root; 0 for a single game. *)

Definition sum_sq_dev (m : Q) (values : list Z) : Q :=
  Qsum (map (fun x => (inject_Z x - m) * (inject_Z x - m))%Q values).

Definition std_spec (values : list Z) : fval R :=
  match values with
  | [] => NaN
  | [_] => Fin 0%R
  | _ :: _ :: _ =>
      let m := (inject_Z (Zsum values) / Qof_nat (length values))%Q in
      Fin (sqrt (Q2R (sum_sq_dev m values / Qof_nat (length values - 1))))
  end.

(** ** More of [str]: stripping, suffixes, padding, replacing *)

Module StrMore.

(** The ASCII characters for which [str.isspace()] holds. *)
Definition is_space (c : ascii) : bool :=
  let n := nat_of_ascii c in
  (((9 <=? n) && (n <=? 13)) || ((28 <=? n) && (n <=? 32)))%nat.

Fixpoint lstrip (s : string) : string :=
  match s with
  | EmptyString => EmptyString
  | String c s' => if is_space c then lstrip s' else s
  end.

Fixpoint rstrip (s : string) : string :=
  match s with
  | EmptyString => EmptyString
  | String c s' =>
      match rstrip s' with
      | EmptyString => if is_space c then EmptyString else String c EmptyString
      | r => String c r
      end
  end.

(** [s.strip()]. *)
Definition strip (s : string) : string := rstrip (lstrip s).

(** [s.endswith(suffix)]. *)
Fixpoint endswith (suffix s : string) : bool :=
  String.eqb suffix s ||
  match s with
  | EmptyString => false
  | String _ s' => endswith suffix s'
  end.

(** [s[:-n]]. *)
Definition drop_last (n : nat) (s : string) : string :=
  String.substring 0 (String.length s - n) s.

Fixpoint zeros (n : nat) : string :=
  match n with
  | O => EmptyString
  | S n' => String "0" (zeros n')
  end.

(** [s.zfill(width)]: zeros on the left up to [width], after a leading
    sign. *)
Definition zfill (width : nat) (s : string) : string :=
  let n := String.length s in
  if (width <=? n)%nat then s
  else
    match s with
    | String c s' =>
        if Ascii.eqb c "+" || Ascii.eqb c "-"
        then String c (zeros (width - n) ++ s')
        else zeros (width - n) ++ s
    | EmptyString => zeros (width - n)
    end.

(** [s.replace(a, b)] for one-character [a] and [b]. *)
Fixpoint replace_char (a b : ascii) (s : string) : string :=
  match s with
  | EmptyString => EmptyString
  | String c s' => String (if Ascii.eqb c a then b else c) (replace_char a b s')
  end.

(** [re.search('vs.', s)], case-sensitive: "vs" followed by one more
    character that is not a newline. *)
Fixpoint search_vs_dot (s : string) : bool :=
  match s with
  | EmptyString => false
  | String a s' =>
      match s' with
      | String b (String c _) =>
          Ascii.eqb a "v" && Ascii.eqb b "s" && negb (Ascii.eqb c "010")
      | _ => false
      end || search_vs_dot s'
  end.

Fixpoint all_digits (s : string) : bool :=
  match s with
  | EmptyString => true
  | String c s' => Str.is_digit c && all_digits s'
  end.

(** [s.isascii()]. *)
Fixpoint isascii (s : string) : bool :=
  match s with
  | EmptyString => true
  | String c s' => (nat_of_ascii c <? 128)%nat && isascii s'
  end.

End StrMore.

(** ** Game log summary: [gamelog.py], [get_game_log_summary] *)

Record GameLogSummary := mkSummary {
  dataframe : list GameRecord;
  total_games : nat;
  wins : nat;
  losses : nat;
  home_games : nat;
  away_games : nat
}.

(** [df['MATCHUP'].str.contains('vs.', na=False)] and
    [df['MATCHUP'].str.contains('@', na=False)] on one row: the patterns
    are regular expressions and case matters. *)
Definition is_home (g : GameRecord) : bool :=
  match MATCHUP g with
  | None => false
  | Some m => StrMore.search_vs_dot m
  end.

Definition is_away (g : GameRecord) : bool :=
  match MATCHUP g with
  | None => false
  | Some m => Str.contains "@" m
  end.

Definition summary_of (df : list GameRecord) : GameLogSummary :=
  {| dataframe := df;
     total_games := length df;
     wins := length (List.filter (fun g => String.eqb (WL g) "W") df);
     losses := length (List.filter (fun g => String.eqb (WL g) "L") df);
     home_games := length (List.filter is_home df);
     away_games := length (List.filter is_away df) |}.

(** ** The front end: [stats.py] *)

(** The summary line under the game-log table,
    [create_game_log_display]: total, wins, and the rest as losses. *)
Definition log_table_summary (game_log_df : list GameRecord) : nat * nat * nat :=
  let total_games := length game_log_df in
  let wins := length (List.filter (fun g => String.eqb (WL g) "W") game_log_df) in
  let losses := (total_games - wins)%nat in
  (total_games, wins, losses).

(** The opening of [show_box_score]: what becomes of the game id. *)
Inductive BoxScoreRequest :=
| InvalidGameId
| NoRequest
| FetchBoxScore (game_id : string).

Definition box_score_request (game_id : string) : BoxScoreRequest :=
  let game_id := StrMore.strip game_id in
  let game_id :=
    if StrMore.endswith ".0" game_id then StrMore.drop_last 2 game_id
    else game_id in
  if String.eqb (Str.lower game_id) "nan" then InvalidGameId
  else if String.eqb game_id EmptyString then NoRequest
  else FetchBoxScore (StrMore.zfill 10 game_id).

(** [Series.unique().tolist()]: every value once, at its first place. *)
Fixpoint unique (l : list (option string)) : list (option string) :=
  match l with
  | [] => []
  | x :: l' =>
      x :: List.filter (fun y => negb (bool_decide (x = y))) (unique l')
  end.

(** The chart files: [charts/<player>_<season>.png] and
    [charts/<player>_vs_<team>_<season>.png], names in lower case with
    underscores for spaces ([stats.py] and the printers of
    [percentile.py]). Strings here are byte strings and [Str.lower] lowers
    the letters A to Z: this is Python's [lower()] on names written in
    ASCII, and only those. *)
Definition slug (s : string) : string :=
  Str.lower (StrMore.replace_char " " "_" s).

Definition chart_path (player season : string) : string :=
  "charts/" ++ slug player ++ "_" ++ season ++ ".png".

Definition vs_chart_path (player team season : string) : string :=
  "charts/" ++ slug player ++ "_vs_" ++ slug team ++ "_" ++ season ++ ".png".

(** ** Exceptions other than [ValueError]

    The helpers raise [ValueError] themselves; the calls they make into
    nba_api can raise other exceptions: its searches compile the text as a
    regular expression and raise [re.error] for a text such as "?", and a
    request can fail. [except ValueError] lets them pass, [except
    Exception] catches them. *)

(** The calls of the front end and of the printers in which one can be
    raised. *)
Inductive Call :=
| SeasonStatsCall (player season : string)
| VsTeamStatsCall (player season opponent : string)
| GameLogCall (player season : string)
| TeamSearchCall (team : string).

(** [str(e)] as [fetch_stats_thread] stores it: the message of a helper's
    [ValueError], or the text of another exception. *)
Inductive StoredError :=
| OfValueError (e : ValueError)
| OfException (text : string).

(** [try: x = call() except Exception as e: ... str(e)], the call raising
    [other] when it is there and running as the helper [r] otherwise. *)
Definition attempt {A} (other : option string) (r : result A) : A + StoredError :=
  match other with
  | Some text => inr (OfException text)
  | None =>
      match r with
      | Ok a => inl a
      | Raise e => inr (OfValueError e)
      end
  end.

(** What [fetch_stats_thread] gathers for one season, charts apart. A key
    that is not set is [None], and [false] for [team_not_found]. *)
Record SeasonData := mkSeasonData {
  sd_season : string;
  season_stats : option Stats;
  season_error : option StoredError;
  vs_team_stats : option Stats;
  vs_team_error : option StoredError;
  game_log : option (list GameRecord);
  vs_team_log : option (list GameRecord);
  team_not_found : bool;
  available_matchups : option (list (option string));
  game_log_error : option StoredError
}.

(** ** The printers of [formula.py] *)

Inductive Line :=
| HeaderLine (player season : string)
| VsHeaderLine (player opponent season : string)
| GamesLine (games : nat)
| StatLine (label : string) (avg : fval Q) (std : fval R) (cv_value : fval R)
| ErrorLine (e : ValueError).

(** An exception that leaves a printer. *)
Inductive Escaped :=
| EscapedZeroDivisionError
| EscapedException (text : string).

(** The six stat lines in the order printed. *)
Definition stat_labels : list (string * StatKey) :=
  [("Points", points); ("Rebounds", rebounds); ("Assists", assists);
   ("Blocks", blocks); ("Steals", steals); ("3PT", threes)].

(** Printing line after line: a [ZeroDivisionError] in a line stops the
    printer after the lines already out and leaves it, as the printers
    catch [ValueError] only. *)
Fixpoint print_stat_lines (st : Stats) (ls : list (string * StatKey))
  : list Line * option Escaped :=
  match ls with
  | [] => ([], None)
  | (label, k) :: ls' =>
      match cv (std_devs st k) (averages st k) with
      | ZeroDivisionError => ([], Some EscapedZeroDivisionError)
      | Value c =>
          let '(out, raised) := print_stat_lines st ls' in
          (StatLine label (averages st k) (std_devs st k) c :: out, raised)
      end
  end.

(** ** Reading a percentile row: [advanced_analysis] of
    [tests/test_percentiles.py] *)



(** [min(values)]. *)
Definition minimum (x : Z) (l : list Z) : Z := fold_right Z.min x l.

Section FrontEnd.

Variable find_players_by_full_name : string -> list Player.
Variable find_team_by_abbreviation : string -> option Team.
Variable find_teams_by_full_name : string -> list Team.
Variable find_teams_by_nickname : string -> list Team.
Variable PlayerGameLog : Z -> string -> list GameRecord.

(** The exception of another kind that a call raises, if it raises one;
    the searches and the game log above are what the calls that return
    give. *)
Variable other_exception : Call -> option string.

(** One pass of the loop of [fetch_stats_thread] fetches the game log three
    times, once in each helper it calls: what the provider answers to the
    request of [get_player_season_stats], of [get_player_vs_team_stats] and
    of [get_player_game_log]. *)
Variable PlayerGameLog_season : Z -> string -> list GameRecord.
Variable PlayerGameLog_vs_team : Z -> string -> list GameRecord.
Variable PlayerGameLog_game_log : Z -> string -> list GameRecord.

(** [gamelog.py], [get_game_log_summary]. *)
Definition get_game_log_summary (player_name season : string)
  : result GameLogSummary :=
  df ← get_player_game_log find_players_by_full_name PlayerGameLog
         player_name season;
  Ok (summary_of df).

(** [formula.py], [print_player_season_stats]: the lines printed, and the
    exception that leaves the printer, if one does. The helper is called
    before the first line is printed. *)
Definition print_player_season_stats (player season : string)
  : list Line * option Escaped :=
  match other_exception (SeasonStatsCall player season) with
  | Some text => ([], Some (EscapedException text))
  | None =>
      match get_player_season_stats find_players_by_full_name PlayerGameLog
              player season with
      | Raise e => ([ErrorLine e], None)
      | Ok st =>
          let '(out, raised) := print_stat_lines st stat_labels in
          (HeaderLine player season :: GamesLine (games_played st) :: out,
           raised)
      end
  end.

(** [formula.py], [print_player_vs_team_stats]. *)
Definition print_player_vs_team_stats (player season opponent : string)
  : list Line * option Escaped :=
  match other_exception (VsTeamStatsCall player season opponent) with
  | Some text => ([], Some (EscapedException text))
  | None =>
      match get_player_vs_team_stats find_players_by_full_name
              find_team_by_abbreviation find_teams_by_full_name
              find_teams_by_nickname PlayerGameLog player season opponent with
      | Raise e => ([ErrorLine e], None)
      | Ok st =>
          let '(out, raised) := print_stat_lines st stat_labels in
          (VsHeaderLine player opponent season :: GamesLine (games_played st)
             :: out, raised)
      end
  end.

(** [stats.py], [fetch_stats_thread]: the body of the loop for one season,
    without the two chart steps. Every step is wrapped in its own
    [try/except Exception] that stores the error. In the last step the game
    log is stored before the team is looked up, inside the same [try]: an
    exception of the team search leaves the log stored beside the error and
    the keys after it not set. *)
Definition season_data_of (player team season : string) : SeasonData :=
  let s1 :=
    attempt (other_exception (SeasonStatsCall player season))
      (get_player_season_stats find_players_by_full_name PlayerGameLog_season
         player season) in
  let s2 :=
    attempt (other_exception (VsTeamStatsCall player season team))
      (get_player_vs_team_stats find_players_by_full_name
         find_team_by_abbreviation find_teams_by_full_name
         find_teams_by_nickname PlayerGameLog_vs_team player season team) in
  let base :=
    {| sd_season := season;
       season_stats := match s1 with inl st => Some st | inr _ => None end;
       season_error := match s1 with inl _ => None | inr e => Some e end;
       vs_team_stats := match s2 with inl st => Some st | inr _ => None end;
       vs_team_error := match s2 with inl _ => None | inr e => Some e end;
       game_log := None; vs_team_log := None; team_not_found := false;
       available_matchups := None; game_log_error := None |} in
  match attempt (other_exception (GameLogCall player season))
          (get_player_game_log find_players_by_full_name PlayerGameLog_game_log
             player season) with
  | inr e =>
      {| sd_season := sd_season base;
         season_stats := season_stats base; season_error := season_error base;
         vs_team_stats := vs_team_stats base; vs_team_error := vs_team_error base;
         game_log := None; vs_team_log := None; team_not_found := false;
         available_matchups := None; game_log_error := Some e |}
  | inl game_log_df =>
      match other_exception (TeamSearchCall team) with
      | Some text =>
          {| sd_season := sd_season base;
             season_stats := season_stats base;
             season_error := season_error base;
             vs_team_stats := vs_team_stats base;
             vs_team_error := vs_team_error base;
             game_log := Some game_log_df; vs_team_log := None;
             team_not_found := false; available_matchups := None;
             game_log_error := Some (OfException text) |}
      | None =>
          let team_abbrev :=
            find_team_abbreviation find_team_by_abbreviation
              find_teams_by_full_name find_teams_by_nickname team in
          let '(log, not_found) :=
            match team_abbrev with
            | Some a =>
                if negb (String.eqb a EmptyString) then
                  let vs_team_log := vs_team game_log_df a in
                  (if negb (truthy vs_team_log) then None else Some vs_team_log,
                   false)
                else (None, true)
            | None => (None, true)
            end in
          {| sd_season := sd_season base;
             season_stats := season_stats base;
             season_error := season_error base;
             vs_team_stats := vs_team_stats base;
             vs_team_error := vs_team_error base;
             game_log := Some game_log_df; vs_team_log := log;
             team_not_found := not_found;
             available_matchups :=
               match log with
               | None =>
                   if truthy game_log_df
                   then Some (unique (map MATCHUP game_log_df)) else None
               | Some _ => None
               end;
             game_log_error := None |}
      end
  end.

(** [for season in reversed(seasons)]: one entry per season, the last
    selected first. *)
Definition fetch_stats_thread (player team : string) (seasons : list string)
  : list SeasonData :=
  map (season_data_of player team) (rev seasons).

End FrontEnd.

(** The stat lines of a printer for the statistics [st]: one line per
    label, in order, each with the coefficient of variation of its field. *)
Definition stat_lines_of (st : Stats) (body : list Line) : Prop :=
  Forall2
    (fun line lk =>
       exists c,
         cv (std_devs st (snd lk)) (averages st (snd lk)) = Value c /\
         line = StatLine (fst lk) (averages st (snd lk)) (std_devs st (snd lk)) c)
    body stat_labels.

(** ** Auxiliary notions of the proofs *)

(** Goals about keys that are set or not set. *)
Ltac option_facts :=
  repeat match goal with
  | |- _ /\ _ => split
  | |- _ <-> _ => split
  | |- _ <> _ => discriminate
  | |- is_Some (Some _) => eexists; reflexivity
  | |- ?x = ?x => reflexivity
  | H : is_Some None |- _ => destruct H; discriminate
  | H : _ /\ _ |- _ => destruct H
  | H : Some _ = None |- _ => discriminate
  | H : None = Some _ |- _ => discriminate
  | H : true = false |- _ => discriminate
  | H : false = true |- _ => discriminate
  | |- forall _, _ => intro
  end.

(** What a resolver returns, up to the wording of its error. *)
Definition outcome (r : result Team) : Team + ErrorKind :=
  match r with
  | Ok t => inl t
  | Raise e => inr (kind e)
  end.

(** The outcome of both resolvers is read off their candidate list. *)
Definition outcome_of (opponent_candidates : list Team) : Team + ErrorKind :=
  match opponent_candidates with
  | [] => inr NotFound
  | [t] => inl t
  | _ :: _ :: _ => inr Ambiguous
  end.

(** A string whose last character is not a space keeps its right end. *)
Fixpoint last_not_space (s : string) : bool :=
  match s with
  | EmptyString => true
  | String c EmptyString => negb (StrMore.is_space c)
  | String _ s' => last_not_space s'
  end.

(** * Properties *)

Example upper_gsw : Str.upper "gsw" = "GSW".
Proof. reflexivity. Qed.

Example contains_gsw : Str.search_ignorecase "GSW" "LAL vs. GSW" = true.
Proof. reflexivity. Qed.

Example percentile_unsorted : feq (percentile [40; 10; 30; 20] 50) (Fin 25%Q).
Proof. vm_compute. reflexivity. Qed.

Example mean_three : feq (mean [1; 2; 6]) (Fin 3%Q).
Proof. vm_compute. reflexivity. Qed.

(** Far from box-score counts the [int64] difference of two neighbours
    wraps: the values [2^62] and [-2^62] are [2^63] apart, which [int64]
    reads as [-2^63]. *)
Example percentile_int64_wrap :
  wrap64 (2 ^ 62 - - 2 ^ 62) = (- 2 ^ 63)%Z /\
  feq (percentile [2 ^ 62; - 2 ^ 62] 25) (Fin (inject_Z (- 2 ^ 62 - 2 ^ 61))) /\
  feq (percentile [2 ^ 62; - 2 ^ 62] 50) (Fin (inject_Z (2 ^ 63))) /\
  feq (percentile [2 ^ 62; - 2 ^ 62] 75) (Fin (inject_Z (2 ^ 62 + 2 ^ 61))) /\
  feq (percentile [2 ^ 62; - 2 ^ 62] 100) (Fin (inject_Z (2 ^ 62))).
Proof. repeat split; vm_compute; reflexivity. Qed.

(** A team text that the searches refuse as a regular expression: the game
    log is stored, then the error, and no key after it is set. *)
Example season_data_team_search_raises :
  let d :=
    season_data_of Roster.find_players_by_full_name
      Roster.find_team_by_abbreviation Roster.find_teams_by_full_name
      Roster.find_teams_by_nickname
      (fun c => match c with
                | SeasonStatsCall _ _ | GameLogCall _ _ => None
                | _ => Some "nothing to repeat at position 1"
                end)
      Roster.PlayerGameLog Roster.PlayerGameLog Roster.PlayerGameLog
      "LeBron James" "?" "2023-24" in
  season_error d = None /\
  vs_team_error d = Some (OfException "nothing to repeat at position 1") /\
  game_log d = Some [Roster.g1; Roster.g2; Roster.g3; Roster.g4] /\
  game_log_error d = Some (OfException "nothing to repeat at position 1") /\
  vs_team_log d = None /\ team_not_found d = false /\
  available_matchups d = None.
Proof. repeat split. Qed.

Lemma truthy_nil_iff {A} (l : list A) : truthy l = false <-> l = [].
Proof. destruct l; simpl; split; intros H; congruence. Qed.

Lemma bind_raise {A B} (r : result A) (k : A -> result B) e :
  r = Raise e -> (r ≫= k) = Raise e.
Proof. intros ->. reflexivity. Qed.

Lemma bind_ok {A B} (r : result A) (k : A -> result B) a :
  r = Ok a -> (r ≫= k) = k a.
Proof. intros ->. reflexivity. Qed.

(** ** Player resolution *)

Section PlayerFacts.

Variable find_players_by_full_name : string -> list Player.
Variable find_team_by_abbreviation : string -> option Team.
Variable find_teams_by_full_name : string -> list Team.
Variable find_teams_by_nickname : string -> list Team.
Variable PlayerGameLog : Z -> string -> list GameRecord.

Abbreviation find_player := (find_player find_players_by_full_name).

(** Every helper resolves the player first: a failed resolution is the
    helper's own failure. *)
Lemma helpers_raise_player_error player_name season opponent_team e :
  find_player player_name = Raise e ->
  get_player_season_stats find_players_by_full_name PlayerGameLog
    player_name season = Raise e /\
  get_player_vs_team_stats find_players_by_full_name find_team_by_abbreviation
    find_teams_by_full_name find_teams_by_nickname PlayerGameLog
    player_name season opponent_team = Raise e /\
  get_player_percentiles_season find_players_by_full_name PlayerGameLog
    player_name season = Raise e /\
  get_player_percentiles_vs_team find_players_by_full_name
    find_team_by_abbreviation find_teams_by_full_name find_teams_by_nickname
    PlayerGameLog player_name season opponent_team = Raise e /\
  get_player_game_log find_players_by_full_name PlayerGameLog
    player_name season = Raise e.
Proof.
  intros He.
  unfold get_player_season_stats, get_player_vs_team_stats,
    get_player_percentiles_season, get_player_percentiles_vs_team,
    get_player_game_log.
  repeat split; apply bind_raise; exact He.
Qed.

(** C6. Player resolution by the number of roster matches: one match is
    returned (its id), no match fails with NotFound, two or more fail with
    Ambiguous carrying the whole match list, so the candidate count is the
    match count. The helpers of [formula.py] and [gamelog.py] fail with
    the resolver's error. *)
Theorem find_player_resolution (player_name season : string) :
  let player_list := find_players_by_full_name player_name in
  (forall p, player_list = [p] -> find_player player_name = Ok (player_id p)) /\
  (player_list = [] ->
     find_player player_name = Raise (PlayerNotFound player_name) /\
     fails_with (find_player player_name) NotFound) /\
  ((2 <= length player_list)%nat ->
     exists candidates,
       find_player player_name = Raise (MultiplePlayers player_name candidates) /\
       fails_with (find_player player_name) Ambiguous /\
       candidates = player_list /\
       length candidates = length player_list) /\
  (forall e, find_player player_name = Raise e ->
     get_player_season_stats find_players_by_full_name PlayerGameLog
       player_name season = Raise e /\
     get_player_game_log find_players_by_full_name PlayerGameLog
       player_name season = Raise e).
Proof.
  intros player_list. unfold find_player. fold player_list.
  repeat split.
  - intros p Hp. rewrite Hp. reflexivity.
  - rewrite H. reflexivity.
  - rewrite H. eexists. split; reflexivity.
  - intros Hlen. exists player_list.
    destruct player_list as [|p [|p' rest]] eqn:E; simpl in Hlen; try lia.
    repeat split. eexists. split; reflexivity.
  - unfold get_player_season_stats. apply bind_raise. assumption.
  - unfold get_player_game_log. apply bind_raise. assumption.
Qed.

End PlayerFacts.

Lemma find_player_resolution_witness :
  find_player Roster.find_players_by_full_name "LeBron James" = Ok 2544 /\
  fails_with (find_player Roster.find_players_by_full_name "Michael Jordan") NotFound /\
  exists candidates,
    find_player Roster.find_players_by_full_name "Curry"
      = Raise (MultiplePlayers "Curry" candidates) /\
    length candidates = 2%nat.
Proof.
  split; [|split].
  - apply (proj1 (find_player_resolution Roster.find_players_by_full_name
                    Roster.PlayerGameLog "LeBron James" "2023-24") Roster.james).
    reflexivity.
  - apply (proj1 (proj2 (find_player_resolution Roster.find_players_by_full_name
                    Roster.PlayerGameLog "Michael Jordan" "2023-24"))).
    reflexivity.
  - destruct (proj1 (proj2 (proj2 (find_player_resolution
                Roster.find_players_by_full_name Roster.PlayerGameLog
                "Curry" "2023-24")))) as (c & Hc & _ & _ & Hlen).
    + simpl. lia.
    + exists c. split; [exact Hc | exact Hlen].
Defined.

(** ** Team resolution *)

Section TeamFacts.

Variable find_team_by_abbreviation : string -> option Team.
Variable find_teams_by_full_name : string -> list Team.
Variable find_teams_by_nickname : string -> list Team.

Abbreviation abbreviation_stage := (abbreviation_stage find_team_by_abbreviation).
Abbreviation nickname_stage := (nickname_stage find_teams_by_nickname).
Abbreviation candidates_formula :=
  (candidates_formula find_team_by_abbreviation find_teams_by_full_name
     find_teams_by_nickname).
Abbreviation candidates_percentile :=
  (candidates_percentile find_team_by_abbreviation find_teams_by_full_name
     find_teams_by_nickname).
Abbreviation find_team_formula :=
  (find_team_formula find_team_by_abbreviation find_teams_by_full_name
     find_teams_by_nickname).
Abbreviation find_team_percentile :=
  (find_team_percentile find_team_by_abbreviation find_teams_by_full_name
     find_teams_by_nickname).

(** The abbreviation stage is skipped for a text of four characters or
    more, and never yields more than one team. *)
Lemma abbreviation_stage_long text :
  (3 < String.length text)%nat -> abbreviation_stage text = [].
Proof.
  intros H. unfold abbreviation_stage.
  destruct (Nat.leb_spec (String.length text) 3); [lia | reflexivity].
Qed.

Lemma abbreviation_stage_short text :
  (String.length text <= 3)%nat ->
  abbreviation_stage text =
    match find_team_by_abbreviation (Str.upper text) with
    | Some t => [t]
    | None => []
    end.
Proof.
  intros H. unfold abbreviation_stage.
  destruct (Nat.leb_spec (String.length text) 3); [reflexivity | lia].
Qed.

Lemma abbreviation_stage_at_most_one text :
  (length (abbreviation_stage text) <= 1)%nat.
Proof.
  unfold abbreviation_stage.
  destruct (_ <=? _)%nat; [|simpl; lia].
  destruct (find_team_by_abbreviation _); simpl; lia.
Qed.

(** [formula.py] follows the cascade of the design: abbreviation, full
    name, nickname, the first stage that is not empty wins. *)
Lemma candidates_formula_cascade text :
  candidates_formula text =
  cascade_spec find_team_by_abbreviation find_teams_by_full_name
    find_teams_by_nickname text.
Proof.
  unfold candidates_formula, cascade_spec; simpl.
  destruct (abbreviation_stage text) as [|t l]; simpl; [|reflexivity].
  destruct (find_teams_by_full_name text) as [|t l]; simpl; [|reflexivity].
  destruct (nickname_stage text); reflexivity.
Qed.

(** [percentile.py] tries the same searches in another order: the raw
    nickname search comes second and the full-name search last. *)
Lemma candidates_percentile_order text :
  candidates_percentile text =
  first_nonempty [abbreviation_stage text;
                  find_teams_by_nickname text;
                  find_teams_by_full_name text].
Proof.
  unfold candidates_percentile; simpl.
  destruct (abbreviation_stage text) as [|t l]; simpl; [|reflexivity].
  destruct (find_teams_by_nickname text) as [|t l]; simpl; [|reflexivity].
  destruct (find_teams_by_full_name text); reflexivity.
Qed.

(** The resolver of the desktop front end is the cascade of
    [formula.py]. *)
Lemma find_team_abbreviation_formula team_input :
  find_team_abbreviation find_team_by_abbreviation find_teams_by_full_name
    find_teams_by_nickname team_input =
  match find_team_formula team_input with
  | Ok t => Some (abbreviation t)
  | Raise _ => None
  end.
Proof.
  unfold find_team_abbreviation, find_team_formula.
  destruct (candidates_formula team_input) as [|t l]; [reflexivity|].
  destruct (1 <? length (t :: l))%nat; reflexivity.
Qed.

(** In [formula.py], once the nickname search is reached and yields
    several teams, the teams whose nickname equals the text up to case
    survive (all of them when none does); several survivors are reported
    as ["full name (abbreviation)"] entries, a single one is returned. *)
Lemma formula_nickname_narrowing text :
  abbreviation_stage text = [] ->
  find_teams_by_full_name text = [] ->
  (1 < length (find_teams_by_nickname text))%nat ->
  let exact_matches :=
    List.filter (fun t => String.eqb (Str.lower (nickname t)) (Str.lower text))
      (find_teams_by_nickname text) in
  let survivors :=
    if truthy exact_matches then exact_matches
    else find_teams_by_nickname text in
  candidates_formula text = survivors /\
  ((1 < length survivors)%nat ->
     find_team_formula text =
     Raise (MultipleTeamsInfo text
              (Str.join ", " (map team_info_of survivors)))) /\
  (forall t, survivors = [t] -> find_team_formula text = Ok t).
Proof.
  intros Ha Hf Hn exact_matches survivors.
  assert (Hc : candidates_formula text = survivors).
  { unfold candidates_formula. rewrite Ha; simpl. rewrite Hf; simpl.
    unfold nickname_stage.
    destruct (find_teams_by_nickname text) as [|t l] eqn:E; [simpl in Hn; lia|].
    fold exact_matches.
    destruct (Nat.ltb_spec 1 (length (t :: l))); [|lia].
    reflexivity. }
  split; [exact Hc|]. unfold find_team_formula. rewrite Hc. split.
  - intros Hs. destruct survivors as [|t l]; [simpl in Hs; lia|].
    destruct (Nat.ltb_spec 1 (length (t :: l))); [reflexivity | lia].
  - intros t ->. reflexivity.
Qed.

End TeamFacts.

Example formula_resolves_abbreviation :
  find_team_formula Roster.find_team_by_abbreviation
    Roster.find_teams_by_full_name Roster.find_teams_by_nickname "gsw"
  = Ok Roster.warriors.
Proof. reflexivity. Qed.

Example formula_resolves_nickname :
  find_team_formula Roster.find_team_by_abbreviation
    Roster.find_teams_by_full_name Roster.find_teams_by_nickname "Lakers"
  = Ok Roster.lakers.
Proof. reflexivity. Qed.

(** C1. The percentile path does not follow the cascade order. For the text
    "ston" (four characters, so no abbreviation stage) the full-name search
    finds Boston, Detroit and Houston and the nickname search finds the
    Pistons alone: the design's cascade and [formula.py] stop at the
    full-name stage and report the ambiguity, while [percentile.py] runs the
    nickname search first and resolves to Detroit. *)
Theorem percentile_path_nickname_before_full_name :
  cascade_spec Roster.find_team_by_abbreviation Roster.find_teams_by_full_name
    Roster.find_teams_by_nickname "ston"
  = [Roster.celtics; Roster.pistons; Roster.rockets] /\
  candidates_formula Roster.find_team_by_abbreviation
    Roster.find_teams_by_full_name Roster.find_teams_by_nickname "ston"
  = [Roster.celtics; Roster.pistons; Roster.rockets] /\
  candidates_percentile Roster.find_team_by_abbreviation
    Roster.find_teams_by_full_name Roster.find_teams_by_nickname "ston"
  = [Roster.pistons] /\
  find_team_formula Roster.find_team_by_abbreviation
    Roster.find_teams_by_full_name Roster.find_teams_by_nickname "ston"
  = Raise (MultipleTeamsInfo "ston"
      "Boston Celtics (BOS), Detroit Pistons (DET), Houston Rockets (HOU)") /\
  find_team_percentile Roster.find_team_by_abbreviation
    Roster.find_teams_by_full_name Roster.find_teams_by_nickname "ston"
  = Ok Roster.pistons.
Proof. repeat split; reflexivity. Qed.

(** C7. The percentile path has no narrowing step. For the text "Nets" the
    nickname search is reached and finds the Nets and the Hornets; exactly
    one of them has the nickname "nets" up to case, so the narrowing would
    leave Brooklyn alone. [percentile.py] fails instead, and its error
    carries the raw team rows, not ["full name (abbreviation)"] entries. *)
Theorem percentile_path_without_narrowing :
  abbreviation_stage Roster.find_team_by_abbreviation "Nets" = [] /\
  Roster.find_teams_by_nickname "Nets" = [Roster.nets; Roster.hornets] /\
  List.filter (fun t => String.eqb (Str.lower (nickname t)) (Str.lower "Nets"))
    (Roster.find_teams_by_nickname "Nets") = [Roster.nets] /\
  nickname_stage Roster.find_teams_by_nickname "Nets" = [Roster.nets] /\
  find_team_percentile Roster.find_team_by_abbreviation
    Roster.find_teams_by_full_name Roster.find_teams_by_nickname "Nets"
  = Raise (MultipleTeams "Nets" [Roster.nets; Roster.hornets]).
Proof. repeat split; reflexivity. Qed.

(** ** Opponent filter *)

Lemma startswith_spec p s :
  Str.startswith p s = true <-> exists post, s = (p ++ post)%string.
Proof.
  revert s. induction p as [|a p IH]; intros s; simpl.
  - split; [intros _; exists s; reflexivity | reflexivity].
  - destruct s as [|b s]; simpl.
    + split; [discriminate | intros [post H]; discriminate].
    + destruct (Ascii.eqb_spec a b) as [->|Hne].
      * rewrite IH. split; intros [post H]; exists post.
        -- rewrite H. reflexivity.
        -- injection H; auto.
      * split; [discriminate | intros [post H]; injection H; intros; congruence].
Qed.

Lemma contains_spec p s :
  Str.contains p s = true <-> exists pre post, s = (pre ++ p ++ post)%string.
Proof.
  induction s as [|b s IH]; simpl.
  - rewrite orb_false_r, startswith_spec. split.
    + intros [post H]. exists EmptyString, post. exact H.
    + intros (pre & post & H).
      destruct pre; simpl in H; [exists post; exact H | discriminate].
  - rewrite orb_true_iff, startswith_spec, IH. split.
    + intros [[post H] | (pre & post & H)].
      * exists EmptyString, post. exact H.
      * exists (String b pre), post. simpl. rewrite H. reflexivity.
    + intros (pre & post & H). destruct pre as [|c pre]; simpl in H.
      * left. exists post. exact H.
      * right. injection H as _ H. exists pre, post. exact H.
Qed.

Lemma str_contains_plays opponent_abbrev g :
  str_contains opponent_abbrev false (MATCHUP g) = true <-> plays opponent_abbrev g.
Proof.
  unfold plays, ci_substring, str_contains, Str.search_ignorecase.
  destruct (MATCHUP g) as [m|].
  - rewrite contains_spec. split.
    + intros H. exists m. split; [reflexivity | exact H].
    + intros (m' & Hm & H). injection Hm as <-. exact H.
  - split; [discriminate | intros (m & Hm & _); discriminate].
Qed.

Lemma vs_team_cons g df opponent_abbrev :
  vs_team (g :: df) opponent_abbrev =
  if str_contains opponent_abbrev false (MATCHUP g)
  then g :: vs_team df opponent_abbrev
  else vs_team df opponent_abbrev.
Proof.
  unfold vs_team. rewrite filter_cons.
  destruct (str_contains opponent_abbrev false (MATCHUP g)) eqn:E;
    case_decide; congruence.
Qed.

Lemma vs_team_app df1 df2 opponent_abbrev :
  vs_team (df1 ++ df2) opponent_abbrev =
  vs_team df1 opponent_abbrev ++ vs_team df2 opponent_abbrev.
Proof. unfold vs_team. apply filter_app. Qed.

Lemma vs_team_selects df opponent_abbrev :
  selects (plays opponent_abbrev) df (vs_team df opponent_abbrev).
Proof.
  induction df as [|g df IH]; [constructor|].
  rewrite vs_team_cons.
  destruct (str_contains opponent_abbrev false (MATCHUP g)) eqn:E.
  - apply selects_keep; [apply str_contains_plays; exact E | exact IH].
  - apply selects_drop; [|exact IH].
    rewrite <- str_contains_plays. congruence.
Qed.

(** [selects] determines its output: there is one list of "exactly those
    games, in their order". *)
Lemma selects_functional P df out1 out2 :
  selects P df out1 -> selects P df out2 -> out1 = out2.
Proof.
  intros H1. revert out2.
  induction H1; intros out2 H2; inversion H2; subst;
    try reflexivity; try contradiction.
  - f_equal. auto.
  - auto.
Qed.

Lemma vs_team_elem_of df opponent_abbrev g :
  g ∈ vs_team df opponent_abbrev <-> g ∈ df /\ plays opponent_abbrev g.
Proof.
  unfold vs_team. rewrite list_elem_of_filter, str_contains_plays. tauto.
Qed.

Lemma vs_team_nil_iff df opponent_abbrev :
  vs_team df opponent_abbrev = [] <->
  forall g, g ∈ df -> ~ plays opponent_abbrev g.
Proof.
  split.
  - intros H g Hg Hp.
    assert (Hin : g ∈ vs_team df opponent_abbrev) by (apply vs_team_elem_of; auto).
    rewrite H in Hin. inversion Hin.
  - intros H. destruct (vs_team df opponent_abbrev) as [|g l] eqn:E; [reflexivity|].
    assert (Hin : g ∈ vs_team df opponent_abbrev) by (rewrite E; left).
    apply vs_team_elem_of in Hin as [Hin Hp]. exfalso. exact (H g Hin Hp).
Qed.

(** C9. A game whose matchup string is missing never passes the opponent
    filter, and the filter treats it as it treats any other game that
    does not match: the remaining rows are filtered as if it were
    absent. *)
Theorem missing_matchup_excluded
    (pre post : list GameRecord) (g : GameRecord) (opponent_abbrev : string) :
  MATCHUP g = None ->
  str_contains opponent_abbrev false (MATCHUP g) = false /\
  ~ plays opponent_abbrev g /\
  (forall df, g ∉ vs_team df opponent_abbrev) /\
  vs_team (pre ++ g :: post) opponent_abbrev
  = vs_team pre opponent_abbrev ++ vs_team post opponent_abbrev.
Proof.
  intros Hm.
  assert (Hc : str_contains opponent_abbrev false (MATCHUP g) = false)
    by (rewrite Hm; reflexivity).
  assert (Hn : ~ plays opponent_abbrev g)
    by (rewrite <- str_contains_plays; congruence).
  repeat split; try assumption.
  - intros df Hin. apply vs_team_elem_of in Hin. tauto.
  - rewrite vs_team_app, vs_team_cons, Hc. reflexivity.
Qed.

(** ** The helpers after resolution *)

Section HelperFacts.

Variable find_players_by_full_name : string -> list Player.
Variable find_team_by_abbreviation : string -> option Team.
Variable find_teams_by_full_name : string -> list Team.
Variable find_teams_by_nickname : string -> list Team.
Variable PlayerGameLog : Z -> string -> list GameRecord.

Abbreviation find_player := (find_player find_players_by_full_name).
Abbreviation find_team_formula :=
  (find_team_formula find_team_by_abbreviation find_teams_by_full_name
     find_teams_by_nickname).
Abbreviation find_team_percentile :=
  (find_team_percentile find_team_by_abbreviation find_teams_by_full_name
     find_teams_by_nickname).
Abbreviation get_player_season_stats :=
  (get_player_season_stats find_players_by_full_name PlayerGameLog).
Abbreviation get_player_vs_team_stats :=
  (get_player_vs_team_stats find_players_by_full_name find_team_by_abbreviation
     find_teams_by_full_name find_teams_by_nickname PlayerGameLog).
Abbreviation get_player_percentiles_season :=
  (get_player_percentiles_season find_players_by_full_name PlayerGameLog).
Abbreviation get_player_percentiles_vs_team :=
  (get_player_percentiles_vs_team find_players_by_full_name
     find_team_by_abbreviation find_teams_by_full_name find_teams_by_nickname
     PlayerGameLog).
Abbreviation get_player_game_log :=
  (get_player_game_log find_players_by_full_name PlayerGameLog).

Lemma season_stats_resolved player_name season pid :
  find_player player_name = Ok pid ->
  get_player_season_stats player_name season =
  match PlayerGameLog pid season with
  | [] => Raise (NoGames player_name season)
  | df => Ok (stats_of df)
  end.
Proof.
  intros Hp. unfold get_player_season_stats.
  rewrite (bind_ok _ _ _ Hp). destruct (PlayerGameLog pid season); reflexivity.
Qed.

Lemma percentiles_season_resolved player_name season pid :
  find_player player_name = Ok pid ->
  get_player_percentiles_season player_name season =
  match PlayerGameLog pid season with
  | [] => Raise (NoGames player_name season)
  | df => Ok (percentile_result df player_name season None)
  end.
Proof.
  intros Hp. unfold get_player_percentiles_season.
  rewrite (bind_ok _ _ _ Hp). destruct (PlayerGameLog pid season); reflexivity.
Qed.

Lemma game_log_resolved player_name season pid :
  find_player player_name = Ok pid ->
  get_player_game_log player_name season =
  match PlayerGameLog pid season with
  | [] => Raise (NoGames player_name season)
  | df => Ok df
  end.
Proof.
  intros Hp. unfold get_player_game_log.
  rewrite (bind_ok _ _ _ Hp). destruct (PlayerGameLog pid season); reflexivity.
Qed.

Lemma vs_team_stats_resolved player_name season opponent_team pid team :
  find_player player_name = Ok pid ->
  find_team_formula opponent_team = Ok team ->
  get_player_vs_team_stats player_name season opponent_team =
  match PlayerGameLog pid season with
  | [] => Raise (NoGames player_name season)
  | df =>
      match vs_team df (abbreviation team) with
      | [] => Raise (NoGamesVsTeam player_name opponent_team season)
      | df_vs_team => Ok (stats_of df_vs_team)
      end
  end.
Proof.
  intros Hp Ht. unfold get_player_vs_team_stats.
  rewrite (bind_ok _ _ _ Hp), (bind_ok _ _ _ Ht).
  destruct (PlayerGameLog pid season) as [|g df]; [reflexivity|]. cbn [truthy negb].
  destruct (vs_team (g :: df) (abbreviation team)); reflexivity.
Qed.

Lemma percentiles_vs_team_resolved player_name season opponent_team pid team :
  find_player player_name = Ok pid ->
  find_team_percentile opponent_team = Ok team ->
  get_player_percentiles_vs_team player_name season opponent_team =
  match PlayerGameLog pid season with
  | [] => Raise (NoGames player_name season)
  | df =>
      match vs_team df (abbreviation team) with
      | [] => Raise (NoGamesVsTeam player_name opponent_team season)
      | df_vs_team =>
          Ok (percentile_result df_vs_team player_name season
                (Some (full_name team)))
      end
  end.
Proof.
  intros Hp Ht. unfold get_player_percentiles_vs_team.
  rewrite (bind_ok _ _ _ Hp), (bind_ok _ _ _ Ht).
  destruct (PlayerGameLog pid season) as [|g df]; [reflexivity|]. cbn [truthy negb].
  destruct (vs_team (g :: df) (abbreviation team)); reflexivity.
Qed.

(** C4. The opponent filter keeps exactly the games whose matchup string
    contains the resolved abbreviation when case is ignored, each in its
    place; when no game of a season that has games does, both helpers
    that filter fail with NoData, and otherwise they summarise the
    filtered games. The abbreviation is a plain pattern, as every
    abbreviation of the roster is. Of the three matchups "LAL vs. GSW",
    "LAL @ BOS", "LAL vs. GSW" the filter for "GSW" keeps the first and
    the third. *)
Theorem matchup_filter_exact (df : list GameRecord) (opponent_abbrev : string) :
  Str.plain opponent_abbrev = true ->
  let games := vs_team df opponent_abbrev in
  selects (plays opponent_abbrev) df games /\
  sublist games df /\
  (forall g, g ∈ games <-> g ∈ df /\ plays opponent_abbrev g) /\
  (forall player_name season opponent_team pid team,
     find_player player_name = Ok pid ->
     PlayerGameLog pid season = df ->
     df <> [] ->
     abbreviation team = opponent_abbrev ->
     (find_team_formula opponent_team = Ok team ->
        (games <> [] ->
           get_player_vs_team_stats player_name season opponent_team
           = Ok (stats_of games)) /\
        ((forall g, g ∈ df -> ~ plays opponent_abbrev g) ->
           get_player_vs_team_stats player_name season opponent_team
           = Raise (NoGamesVsTeam player_name opponent_team season) /\
           fails_with
             (get_player_vs_team_stats player_name season opponent_team)
             NoData)) /\
     (find_team_percentile opponent_team = Ok team ->
        (games <> [] ->
           get_player_percentiles_vs_team player_name season opponent_team
           = Ok (percentile_result games player_name season
                   (Some (full_name team)))) /\
        ((forall g, g ∈ df -> ~ plays opponent_abbrev g) ->
           get_player_percentiles_vs_team player_name season opponent_team
           = Raise (NoGamesVsTeam player_name opponent_team season) /\
           fails_with
             (get_player_percentiles_vs_team player_name season opponent_team)
             NoData))) /\
  vs_team [Roster.g1; Roster.g2; Roster.g3] "GSW" = [Roster.g1; Roster.g3].
Proof.
  intros _ games. subst games. split; [apply vs_team_selects|].
  split; [apply sublist_filter|].
  split; [intros g; apply vs_team_elem_of|].
  split; [|reflexivity].
  intros player_name season opponent_team pid team Hp Hdf Hne Habbr.
  split; intros Ht.
  - rewrite (vs_team_stats_resolved _ season _ _ _ Hp Ht), Hdf, Habbr.
    destruct df as [|g0 df0]; [congruence|]. split.
    + intros Hg.
      destruct (vs_team (g0 :: df0) opponent_abbrev); [congruence | reflexivity].
    + intros Hnone. apply vs_team_nil_iff in Hnone.
      rewrite Hnone. split; [reflexivity|]. eexists; split; reflexivity.
  - rewrite (percentiles_vs_team_resolved _ season _ _ _ Hp Ht), Hdf, Habbr.
    destruct df as [|g0 df0]; [congruence|]. split.
    + intros Hg.
      destruct (vs_team (g0 :: df0) opponent_abbrev); [congruence | reflexivity].
    + intros Hnone. apply vs_team_nil_iff in Hnone.
      rewrite Hnone. split; [reflexivity|]. eexists; split; reflexivity.
Qed.

(** C8. An empty game log is never a success. Once the player is
    resolved, the three season helpers fail with NoData on an empty log;
    the two opponent helpers never return a result on it, fail with
    NoData as soon as the opponent resolves, and fail with NoData as well
    when the log has games but none against the opponent. *)
Theorem empty_game_set_is_no_data
    (player_name season opponent_team : string) (pid : Z) :
  find_player player_name = Ok pid ->
  (PlayerGameLog pid season = [] ->
     fails_with (get_player_season_stats player_name season) NoData /\
     fails_with (get_player_percentiles_season player_name season) NoData /\
     fails_with (get_player_game_log player_name season) NoData /\
     (forall r, get_player_vs_team_stats player_name season opponent_team
                <> Ok r) /\
     (forall r, get_player_percentiles_vs_team player_name season opponent_team
                <> Ok r) /\
     (forall team, find_team_formula opponent_team = Ok team ->
        fails_with (get_player_vs_team_stats player_name season opponent_team)
          NoData) /\
     (forall team, find_team_percentile opponent_team = Ok team ->
        fails_with
          (get_player_percentiles_vs_team player_name season opponent_team)
          NoData)) /\
  (forall team, vs_team (PlayerGameLog pid season) (abbreviation team) = [] ->
     (find_team_formula opponent_team = Ok team ->
        fails_with (get_player_vs_team_stats player_name season opponent_team)
          NoData) /\
     (find_team_percentile opponent_team = Ok team ->
        fails_with
          (get_player_percentiles_vs_team player_name season opponent_team)
          NoData)).
Proof.
  intros Hp. split.
  - intros He.
    rewrite (season_stats_resolved _ season _ Hp),
      (percentiles_season_resolved _ season _ Hp),
      (game_log_resolved _ season _ Hp), He.
    do 3 (split; [eexists; split; reflexivity|]).
    split; [|split; [|split]].
    + intros r. unfold get_player_vs_team_stats. rewrite (bind_ok _ _ _ Hp).
      destruct (find_team_formula opponent_team) as [t|e]; simpl.
      * rewrite He. discriminate.
      * discriminate.
    + intros r. unfold get_player_percentiles_vs_team.
      rewrite (bind_ok _ _ _ Hp).
      destruct (find_team_percentile opponent_team) as [t|e]; simpl.
      * rewrite He. discriminate.
      * discriminate.
    + intros team Ht.
      rewrite (vs_team_stats_resolved _ season _ _ _ Hp Ht), He.
      eexists; split; reflexivity.
    + intros team Ht.
      rewrite (percentiles_vs_team_resolved _ season _ _ _ Hp Ht), He.
      eexists; split; reflexivity.
  - intros team Hv. split; intros Ht.
    + rewrite (vs_team_stats_resolved _ season _ _ _ Hp Ht).
      destruct (PlayerGameLog pid season); [eexists; split; reflexivity|].
      rewrite Hv. eexists; split; reflexivity.
    + rewrite (percentiles_vs_team_resolved _ season _ _ _ Hp Ht).
      destruct (PlayerGameLog pid season); [eexists; split; reflexivity|].
      rewrite Hv. eexists; split; reflexivity.
Qed.

End HelperFacts.

Lemma matchup_filter_exact_witness :
  get_player_vs_team_stats Roster.find_players_by_full_name
    Roster.find_team_by_abbreviation Roster.find_teams_by_full_name
    Roster.find_teams_by_nickname Roster.PlayerGameLog
    "LeBron James" "2023-24" "Warriors"
  = Ok (stats_of [Roster.g1; Roster.g3]) /\
  fails_with
    (get_player_percentiles_vs_team Roster.find_players_by_full_name
       Roster.find_team_by_abbreviation Roster.find_teams_by_full_name
       Roster.find_teams_by_nickname Roster.PlayerGameLog
       "LeBron James" "2023-24" "Rockets")
    NoData.
Proof.
  split.
  - destruct (matchup_filter_exact Roster.find_players_by_full_name
                Roster.find_team_by_abbreviation Roster.find_teams_by_full_name
                Roster.find_teams_by_nickname Roster.PlayerGameLog
                [Roster.g1; Roster.g2; Roster.g3; Roster.g4] "GSW" eq_refl)
      as (_ & _ & _ & H & _).
    destruct (H "LeBron James" "2023-24" "Warriors" 2544 Roster.warriors
                eq_refl eq_refl ltac:(discriminate) eq_refl) as [Hf _].
    destruct (Hf eq_refl) as [Hok _].
    apply Hok. vm_compute. discriminate.
  - destruct (matchup_filter_exact Roster.find_players_by_full_name
                Roster.find_team_by_abbreviation Roster.find_teams_by_full_name
                Roster.find_teams_by_nickname Roster.PlayerGameLog
                [Roster.g1; Roster.g2; Roster.g3; Roster.g4] "HOU" eq_refl)
      as (_ & _ & _ & H & _).
    destruct (H "LeBron James" "2023-24" "Rockets" 2544 Roster.rockets
                eq_refl eq_refl ltac:(discriminate) eq_refl) as [_ Hp].
    destruct (Hp eq_refl) as [_ Hnone].
    apply Hnone. apply vs_team_nil_iff. reflexivity.
Defined.

Lemma missing_matchup_excluded_witness :
  MATCHUP Roster.g4 = None /\
  vs_team ([Roster.g1; Roster.g2; Roster.g3] ++ Roster.g4 :: []) "GSW"
  = vs_team [Roster.g1; Roster.g2; Roster.g3] "GSW" ++ vs_team [] "GSW".
Proof.
  split; [reflexivity|].
  apply (missing_matchup_excluded [Roster.g1; Roster.g2; Roster.g3] []
           Roster.g4 "GSW" eq_refl).
Defined.

Lemma empty_game_set_is_no_data_witness :
  fails_with
    (get_player_season_stats Roster.find_players_by_full_name
       Roster.PlayerGameLog "LeBron James" "2021-22") NoData /\
  fails_with
    (get_player_vs_team_stats Roster.find_players_by_full_name
       Roster.find_team_by_abbreviation Roster.find_teams_by_full_name
       Roster.find_teams_by_nickname Roster.PlayerGameLog
       "LeBron James" "2022-23" "Warriors") NoData.
Proof.
  split.
  - apply (empty_game_set_is_no_data Roster.find_players_by_full_name
             Roster.find_team_by_abbreviation Roster.find_teams_by_full_name
             Roster.find_teams_by_nickname Roster.PlayerGameLog
             "LeBron James" "2021-22" "Warriors" 2544 eq_refl).
    reflexivity.
  - apply (proj2 (empty_game_set_is_no_data Roster.find_players_by_full_name
             Roster.find_team_by_abbreviation Roster.find_teams_by_full_name
             Roster.find_teams_by_nickname Roster.PlayerGameLog
             "LeBron James" "2022-23" "Warriors" 2544 eq_refl) Roster.warriors).
    + reflexivity.
    + reflexivity.
Defined.

(** ** Numbers *)

Lemma inject_Z_sub x y : (inject_Z (x - y) == inject_Z x - inject_Z y)%Q.
Proof. unfold Z.sub. rewrite inject_Z_plus, inject_Z_opp. reflexivity. Qed.

Lemma wrap64_fits z : (- 2 ^ 63 <= z < 2 ^ 63)%Z -> wrap64 z = z.
Proof.
  intros H. unfold wrap64. rewrite Z.mod_small by lia. lia.
Qed.

Lemma lerp_eq a b t :
  (- 2 ^ 63 <= b - a < 2 ^ 63)%Z ->
  (lerp a b t == inject_Z a + inject_Z (b - a) * t)%Q.
Proof.
  intros H. unfold lerp. rewrite (wrap64_fits _ H).
  unfold Z.sub. rewrite inject_Z_plus, inject_Z_opp.
  destruct (Qle_bool (1 # 2) t); ring.
Qed.

(** Between equal neighbours the difference is 0 and nothing wraps. *)
Lemma lerp_same a t : (lerp a a t == inject_Z a)%Q.
Proof.
  unfold lerp. rewrite Z.sub_diag. change (wrap64 0) with 0%Z.
  change (inject_Z 0) with 0%Q.
  destruct (Qle_bool (1 # 2) t); ring.
Qed.

Lemma maximum_ge x l y : y ∈ x :: l -> (y <= maximum x l)%Z.
Proof.
  induction l as [|z l IH]; simpl.
  - intros H. apply list_elem_of_singleton in H. lia.
  - intros H. apply elem_of_cons in H as [->|H].
    + assert (x <= maximum x l)%Z by (apply IH; left). lia.
    + apply elem_of_cons in H as [->|H]; [lia|].
      assert (y <= maximum x l)%Z by (apply IH; right; exact H). lia.
Qed.

Lemma maximum_elem_of x l : maximum x l ∈ x :: l.
Proof.
  induction l as [|z l IH]; simpl; [left|].
  destruct (Z.max_spec z (maximum x l)) as [[_ ->]|[_ ->]].
  - apply elem_of_cons in IH as [->|IH]; [left | right; right; exact IH].
  - right; left.
Qed.

Lemma StronglySorted_nth_le (arr : list Z) (i j : nat) :
  StronglySorted Z.le arr -> (i <= j < length arr)%nat ->
  (nth i arr 0 <= nth j arr 0)%Z.
Proof.
  intros Hs. revert i j. induction Hs as [|a l Hs IH Hall]; intros i j Hij.
  - simpl in Hij. lia.
  - destruct j as [|j]; [assert (i = 0%nat) as -> by lia; lia|].
    destruct i as [|i]; simpl.
    + rewrite Forall_forall in Hall. apply Hall.
      apply list_elem_of_In, nth_In. simpl in Hij. lia.
    + apply IH. simpl in Hij. lia.
Qed.

Lemma rank_of_bounds n q :
  (0 < n)%nat -> (0 <= q <= 100)%Z ->
  (0 <= rank_of n q)%Q /\ (rank_of n q <= inject_Z (Z.of_nat n - 1))%Q.
Proof.
  intros Hn Hq. unfold rank_of.
  assert (H0 : (0 <= inject_Z (Z.of_nat n - 1))%Q).
  { change 0%Q with (inject_Z 0). rewrite <- Zle_Qle. lia. }
  assert (H1 : (0 <= q # 100)%Q) by (unfold Qle; simpl; lia).
  assert (H2 : (q # 100 <= 1)%Q) by (unfold Qle; simpl; lia).
  split; nra.
Qed.


Lemma rank_of_100 n : (rank_of n 100 == inject_Z (Z.of_nat n - 1))%Q.
Proof.
  unfold rank_of, Qeq. simpl. lia.
Qed.

Lemma merge_sort_length (data : list Z) :
  length (merge_sort Z.le data) = length data.
Proof. apply Permutation_length, merge_sort_Permutation. Qed.

Lemma merge_sort_sorted (data : list Z) :
  StronglySorted Z.le (merge_sort Z.le data).
Proof. apply StronglySorted_merge_sort; apply _. Qed.

Lemma sorted_rank_elem_of (data : list Z) (i : Z) :
  (0 <= i <= Z.of_nat (length data) - 1)%Z ->
  rank_value (merge_sort Z.le data) i ∈ data.
Proof.
  intros Hi. rewrite <- (merge_sort_Permutation Z.le data) at 2.
  unfold rank_value. apply list_elem_of_In, nth_In.
  rewrite merge_sort_length. lia.
Qed.

(** [np.percentile] interpolates between the ranks [floor h] and
    [floor h + 1] of the sorted values, [h] the rank of [q]; at the last
    rank both neighbours are the last value. *)
Lemma percentile_neighbours (data : list Z) (q : Z) :
  data <> [] -> (0 <= q <= 100)%Z ->
  let arr := merge_sort Z.le data in
  let h := rank_of (length data) q in
  let k := Qfloor h in
  let k' := Z.min (k + 1) (Z.of_nat (length data) - 1) in
  exists t,
    percentile data q = Fin (lerp (rank_value arr k) (rank_value arr k') t) /\
    (k' = k \/ (t == h - inject_Z k)%Q) /\
    (0 <= k <= k')%Z /\ (k' <= Z.of_nat (length data) - 1)%Z.
Proof.
  intros Hne Hq arr h k k'. subst arr k'. unfold percentile.
  assert (Hlen := merge_sort_length data).
  assert (Hn : (0 < length data)%nat) by (destruct data; simpl; [congruence | lia]).
  destruct (merge_sort Z.le data) as [|a0 arr0] eqn:Earr;
    [simpl in Hlen; lia|].
  set (arr := a0 :: arr0) in *.
  fold (rank_of (length arr) q). rewrite Hlen. fold h.
  destruct (rank_of_bounds (length data) q Hn Hq) as [Hlo Hhi]. fold h in Hlo, Hhi.
  unfold get_indexes. fold k.
  destruct (Qle_bool (inject_Z (Z.of_nat (length data) - 1)) h) eqn:Eb.
  - apply Qle_bool_iff in Eb.
    assert (Hh : (h == inject_Z (Z.of_nat (length data) - 1))%Q) by lra.
    assert (Hfl : k = (Z.of_nat (length data) - 1)%Z).
    { unfold k. rewrite (Qfloor_comp _ _ Hh). apply Qfloor_Z. }
    eexists. split; [|split; [left; lia | lia]].
    rewrite Z.min_r by lia. rewrite Hfl.
    unfold py_index, rank_value. rewrite Hlen.
    change (-1 <? 0)%Z with true. cbv iota.
    replace (Z.of_nat (length data) + -1)%Z with (Z.of_nat (length data) - 1)%Z by lia.
    reflexivity.
  - assert (Hlt : (h < inject_Z (Z.of_nat (length data) - 1))%Q).
    { apply Qnot_le_lt. intros Hc. apply Qle_bool_iff in Hc. congruence. }
    assert (Hk0 : (0 <= k)%Z).
    { change 0%Z with (Qfloor 0). apply Qfloor_resp_le. exact Hlo. }
    assert (Hk1 : (k + 1 <= Z.of_nat (length data) - 1)%Z).
    { assert (Hf := Qfloor_le h). fold k in Hf.
      assert (Hx : (k < Z.of_nat (length data) - 1)%Z)
        by (rewrite Zlt_Qlt; lra).
      lia. }
    eexists. split; [|split; [right; reflexivity | lia]].
    rewrite Z.min_l by lia.
    unfold py_index, rank_value.
    destruct (Z.ltb_spec k 0); [lia|].
    destruct (Z.ltb_spec (k + 1) 0); [lia|].
    reflexivity.
Qed.

(** For values whose differences fit, [np.percentile] is the interpolation
    of the design at the rank of [q]. *)
Lemma percentile_interpolate (data : list Z) (q : Z) :
  data <> [] -> (0 <= q <= 100)%Z -> differences_fit_int64 data ->
  exists v,
    percentile data q = Fin v /\
    (v == interpolate (merge_sort Z.le data) (rank_of (length data) q))%Q.
Proof.
  intros Hne Hq Hfit.
  destruct (percentile_neighbours data q Hne Hq) as (t & E & Ht & Hk & Hk').
  cbv zeta in E, Ht, Hk, Hk'.
  eexists. split; [exact E|].
  unfold interpolate. rewrite merge_sort_length.
  destruct Ht as [Ht|Ht].
  - rewrite Ht, lerp_same, Z.sub_diag. change (inject_Z 0) with 0%Q. ring.
  - rewrite lerp_eq.
    + rewrite Ht. reflexivity.
    + apply Hfit; apply sorted_rank_elem_of; lia.
Qed.

Lemma rank_value_mono (arr : list Z) (i j : Z) :
  StronglySorted Z.le arr ->
  (0 <= i <= j)%Z -> (j <= Z.of_nat (length arr) - 1)%Z ->
  (rank_value arr i <= rank_value arr j)%Z.
Proof.
  intros Hs Hij Hj. unfold rank_value.
  apply StronglySorted_nth_le; [exact Hs | lia].
Qed.

Lemma Qfloor_rank_bounds (n : nat) (h : Q) :
  (0 <= h)%Q -> (h <= inject_Z (Z.of_nat n - 1))%Q ->
  (0 <= Qfloor h <= Z.of_nat n - 1)%Z.
Proof.
  intros H0 H1. split.
  - change 0%Z with (Qfloor 0). apply Qfloor_resp_le. exact H0.
  - rewrite <- (Qfloor_Z (Z.of_nat n - 1)). apply Qfloor_resp_le. exact H1.
Qed.

(** The interpolated value lies between its two neighbouring ranks. *)
Lemma interpolate_bounds (arr : list Z) (h : Q) :
  StronglySorted Z.le arr ->
  (0 <= h)%Q -> (h <= inject_Z (Z.of_nat (length arr) - 1))%Q ->
  let k := Qfloor h in
  let k' := Z.min (k + 1) (Z.of_nat (length arr) - 1) in
  (inject_Z (rank_value arr k) <= interpolate arr h)%Q /\
  (interpolate arr h <= inject_Z (rank_value arr k'))%Q.
Proof.
  intros Hs H0 H1 k k'.
  destruct (Qfloor_rank_bounds _ _ H0 H1) as [Hk0 Hk1]. fold k in Hk0, Hk1.
  assert (Hd : (rank_value arr k <= rank_value arr k')%Z)
    by (apply rank_value_mono; [exact Hs | lia | lia]).
  assert (Hf0 : (inject_Z k <= h)%Q) by apply Qfloor_le.
  assert (Hf1 : (h < inject_Z (k + 1))%Q) by apply Qlt_floor.
  rewrite inject_Z_plus in Hf1. change (inject_Z 1) with 1%Q in Hf1.
  unfold interpolate. fold k. fold k'.
  rewrite Zle_Qle in Hd.
  rewrite !inject_Z_sub.
  set (a := inject_Z (rank_value arr k)) in *.
  set (b := inject_Z (rank_value arr k')) in *.
  set (z := inject_Z k) in *.
  split; nra.
Qed.



(** The last rank of the sorted values is the maximum. *)
Lemma last_rank_maximum (x : Z) (data : list Z) :
  rank_value (merge_sort Z.le (x :: data))
    (Z.of_nat (length (x :: data)) - 1) = maximum x data.
Proof.
  set (arr := merge_sort Z.le (x :: data)).
  assert (Hlen : length arr = length (x :: data)) by apply merge_sort_length.
  assert (Hperm : arr ≡ₚ x :: data) by apply merge_sort_Permutation.
  assert (Hs : StronglySorted Z.le arr) by apply merge_sort_sorted.
  rewrite <- Hlen.
  assert (Hpos : (0 < length arr)%nat) by (rewrite Hlen; simpl; lia).
  apply Z.le_antisymm.
  - apply maximum_ge. rewrite <- Hperm. unfold rank_value.
    apply list_elem_of_In, nth_In. lia.
  - assert (Hin : maximum x data ∈ arr)
      by (rewrite Hperm; apply maximum_elem_of).
    apply list_elem_of_In, (In_nth _ _ 0%Z) in Hin as (i & Hi & <-).
    unfold rank_value. apply StronglySorted_nth_le; [exact Hs | lia].
Qed.

Lemma percentile_100_maximum (x : Z) (data : list Z) :
  feq (percentile (x :: data) 100) (Fin (inject_Z (maximum x data))).
Proof.
  destruct (percentile_neighbours (x :: data) 100) as (t & E & _);
    [discriminate | lia |].
  cbv zeta in E. rewrite E. clear E.
  assert (Hr := rank_of_100 (length (x :: data))).
  assert (Hfl : Qfloor (rank_of (length (x :: data)) 100)
                = (Z.of_nat (length (x :: data)) - 1)%Z).
  { rewrite (Qfloor_comp _ _ Hr). apply Qfloor_Z. }
  rewrite Hfl. rewrite Z.min_r by lia.
  cbn [feq]. rewrite lerp_same, last_rank_maximum. reflexivity.
Qed.

(** ** Percentile results *)

Lemma column_length col df : length (column col df) = length df.
Proof. unfold column. apply length_map. Qed.

(** What the loop of the percentile helpers leaves under each name. *)
Lemma percentile_result_lookup df player_name season opponent stat name :
  (stat, name) ∈ zip stats stat_names ->
  let r := percentile_result df player_name season opponent in
  percentiles r !! name
  = Some {| p25th := percentile (column stat df) 25;
            p50th := percentile (column stat df) 50;
            p75th := percentile (column stat df) 75;
            p100th := percentile (column stat df) 100 |} /\
  raw_data r !! name = Some (column stat df) /\
  pr_games_played r = length df.
Proof.
  intros Hin r. subst r. unfold percentile_result.
  cbn [stats stat_names zip_with fold_left percentile_step percentiles raw_data
       pr_games_played pr_player_name pr_season pr_opponent] in *.
  repeat (apply elem_of_cons in Hin as [Hin|Hin];
          [injection Hin as -> -> ;
           repeat (rewrite lookup_insert_ne by discriminate);
           rewrite !lookup_insert_eq; auto |]).
  inversion Hin.
Qed.


Lemma in_int62_fit (data : list Z) :
  forallb in_int62 data = true -> differences_fit_int64 data.
Proof.
  intros H y z Hy Hz. rewrite forallb_forall in H.
  assert (Hy' := H y (proj1 (list_elem_of_In _ _) Hy)).
  assert (Hz' := H z (proj1 (list_elem_of_In _ _) Hz)).
  unfold in_int62 in Hy', Hz'.
  apply andb_true_iff in Hy' as [Hy1 Hy2]. apply andb_true_iff in Hz' as [Hz1 Hz2].
  apply Z.leb_le in Hy1, Hz1. apply Z.ltb_lt in Hy2, Hz2. lia.
Qed.






(** C5. The percentile calculator stores under each stat name the 25th,
    50th, 75th and 100th percentile of that column; for values whose
    differences fit in [int64], as box-score counts do, every percentile is
    the linear interpolation between the two neighbouring ranks of the
    sorted values; the values 10, 20, 30, 40 give 17.5, 25, 32.5 and 40; and
    the 100th percentile of every non-empty list is its maximum. *)
Theorem percentile_linear_interpolation :
  (forall df player_name season opponent stat name,
     (stat, name) ∈ zip stats stat_names ->
     percentiles (percentile_result df player_name season opponent) !! name
     = Some {| p25th := percentile (column stat df) 25;
               p50th := percentile (column stat df) 50;
               p75th := percentile (column stat df) 75;
               p100th := percentile (column stat df) 100 |}) /\
  (forall data q,
     data <> [] -> (0 <= q <= 100)%Z -> differences_fit_int64 data ->
     exists v,
       percentile data q = Fin v /\
       (v == interpolate (merge_sort Z.le data) (rank_of (length data) q))%Q) /\
  feq (percentile [10; 20; 30; 40] 25) (Fin (35 # 2)) /\
  feq (percentile [10; 20; 30; 40] 50) (Fin 25%Q) /\
  feq (percentile [10; 20; 30; 40] 75) (Fin (65 # 2)) /\
  feq (percentile [10; 20; 30; 40] 100) (Fin 40%Q) /\
  (forall x data,
     feq (percentile (x :: data) 100) (Fin (inject_Z (maximum x data)))).
Proof.
  split.
  { intros df player_name season opponent stat name Hin.
    apply (percentile_result_lookup df player_name season opponent stat name Hin). }
  split; [exact percentile_interpolate|].
  do 4 (split; [vm_compute; reflexivity|]).
  exact percentile_100_maximum.
Qed.

Lemma percentile_linear_interpolation_witness :
  (exists v,
     percentile [7; 3; 9] 50 = Fin v /\
     (v == interpolate (merge_sort Z.le [7; 3; 9]%Z) (rank_of 3 50))%Q) /\
  percentiles (percentile_result [Roster.g1; Roster.g2] "LeBron James" "2023-24" None)
    !! "points"
  = Some {| p25th := percentile [10; 20] 25; p50th := percentile [10; 20] 50;
            p75th := percentile [10; 20] 75; p100th := percentile [10; 20] 100 |}.
Proof.
  split.
  - apply (proj1 (proj2 percentile_linear_interpolation) [7; 3; 9] 50).
    + discriminate.
    + lia.
    + apply in_int62_fit. reflexivity.
  - apply (proj1 percentile_linear_interpolation
             [Roster.g1; Roster.g2] "LeBron James" "2023-24" None cPTS "points").
    left.
Defined.

Section PercentileFacts.

Variable find_players_by_full_name : string -> list Player.
Variable find_team_by_abbreviation : string -> option Team.
Variable find_teams_by_full_name : string -> list Team.
Variable find_teams_by_nickname : string -> list Team.
Variable PlayerGameLog : Z -> string -> list GameRecord.


End PercentileFacts.


(** ** Mean, standard deviation and coefficient of variation *)

Lemma Qsum_ext {A} (f g : A -> Q) (l : list A) :
  (forall x, f x == g x)%Q -> (Qsum (map f l) == Qsum (map g l))%Q.
Proof.
  intros H. induction l as [|x l IH]; simpl; [reflexivity|].
  rewrite (H x), IH. reflexivity.
Qed.

Lemma Qsum_squares_nonneg {A} (f : A -> Q) (l : list A) :
  (0 <= Qsum (map (fun x => f x * f x) l))%Q.
Proof.
  induction l as [|x l IH]; simpl; [apply Qle_refl|].
  assert (0 <= f x * f x)%Q by nra. lra.
Qed.

Lemma Qof_nat_pos n : (0 < n)%nat -> (0 < Qof_nat n)%Q.
Proof.
  intros H. unfold Qof_nat. change 0%Q with (inject_Z 0).
  rewrite <- Zlt_Qlt. lia.
Qed.

Lemma Q2R_Qof_nat n : Q2R (Qof_nat n) = INR n.
Proof.
  unfold Qof_nat, Q2R. simpl. rewrite <- INR_IZR_INZ. lra.
Qed.

Lemma sum_sq_dev_flip (m : Q) (values : list Z) :
  (Qsum (map (fun x => (m - inject_Z x) * (m - inject_Z x)) values)
   == sum_sq_dev m values)%Q.
Proof. unfold sum_sq_dev. apply Qsum_ext. intros x. ring. Qed.

(** pandas' variance is the sum of squared deviations over [count - 1]. *)
Lemma nanvar_sample (values : list Z) :
  (1 < length values)%nat ->
  exists v,
    nanvar values = Fin v /\
    (0 <= v)%Q /\
    (v == sum_sq_dev (inject_Z (Zsum values) / Qof_nat (length values)) values
          / Qof_nat (length values - 1))%Q.
Proof.
  intros Hn. unfold nanvar, ddof.
  destruct (Nat.leb_spec (length values) 1); [lia|].
  eexists. split; [reflexivity|].
  assert (Hd : (0 < Qof_nat (length values - 1))%Q) by (apply Qof_nat_pos; lia).
  split.
  - apply Qle_shift_div_l; [exact Hd|]. rewrite Qmult_0_l.
    apply (Qsum_squares_nonneg
             (fun x => inject_Z (Zsum values) / Qof_nat (length values) - inject_Z x)%Q).
  - rewrite sum_sq_dev_flip. reflexivity.
Qed.

Lemma nanvar_single (values : list Z) :
  (length values <= 1)%nat -> nanvar values = NaN.
Proof.
  intros Hn. unfold nanvar, ddof.
  destruct (Nat.leb_spec (length values) 1); [reflexivity | lia].
Qed.

Lemma mean_nonempty (values : list Z) :
  values <> [] ->
  mean values = Fin (inject_Z (Zsum values) / Qof_nat (length values))%Q.
Proof. destruct values; [congruence | reflexivity]. Qed.

(** C2, as the code has it. For the stat fields of a non-empty sequence of
    games: with more than one game the standard deviation is the sample
    one, a non-negative number whose square times (games - 1) is the sum of
    the squared deviations from the mean, and it agrees with the design's
    definition; with exactly one game it is NaN, as the divisor
    games - 1 is zero and nothing replaces the result. *)
Theorem std_sample_convention (df : list GameRecord) (k : StatKey) :
  df <> [] ->
  let st := stats_of df in
  let values := column (stat_column k) df in
  games_played st = length df /\
  ((1 < length df)%nat ->
     exists m s,
       averages st k = Fin m /\
       std_devs st k = Fin s /\
       (0 <= s)%R /\
       (s * s * INR (length df - 1) = Q2R (sum_sq_dev m values))%R /\
       std_devs st k = std_spec values) /\
  (length df = 1%nat -> std_devs st k = NaN).
Proof.
  intros Hne st values. split; [reflexivity|].
  assert (Hlen : length values = length df) by apply column_length.
  split.
  - intros Hn. cbn [st stats_of averages std_devs]. fold values.
    assert (Hv : values <> []).
    { intros E. rewrite E in Hlen. simpl in Hlen. lia. }
    rewrite (mean_nonempty values Hv).
    destruct (nanvar_sample values) as (v & Ev & Hv0 & Hvs); [lia|].
    unfold std. rewrite Ev.
    eexists _, _. split; [reflexivity|]. split; [reflexivity|].
    assert (Hr0 : (0 <= Q2R v)%R).
    { replace 0%R with (Q2R 0) by (unfold Q2R; simpl; lra).
      apply Qle_Rle. exact Hv0. }
    split; [apply sqrt_pos|]. split.
    + rewrite sqrt_sqrt by exact Hr0.
      rewrite <- Hlen, <- Q2R_Qof_nat, <- Q2R_mult.
      apply Qeq_eqR. rewrite Hvs. field.
      intros E. assert (0 < Qof_nat (length values - 1))%Q
        by (apply Qof_nat_pos; lia). lra.
    + unfold std_spec. destruct values as [|x [|y l]]; simpl in Hlen; try lia.
      do 2 f_equal. apply Qeq_eqR. exact Hvs.
  - intros H1. cbn [st stats_of std_devs]. unfold std.
    rewrite nanvar_single; [reflexivity|]. fold values. lia.
Qed.

Lemma std_sample_convention_witness :
  exists m s,
    averages (stats_of [Roster.g1; Roster.g2; Roster.g3]) points = Fin m /\
    std_devs (stats_of [Roster.g1; Roster.g2; Roster.g3]) points = Fin s /\
    (s * s * INR 2 = Q2R (sum_sq_dev m [10; 20; 30]%Z))%R.
Proof.
  destruct (std_sample_convention [Roster.g1; Roster.g2; Roster.g3] points
              ltac:(discriminate)) as (_ & H & _).
  destruct H as (m & s & Hm & Hs & _ & Hsq & _); [simpl; lia|].
  exists m, s. split; [exact Hm|]. split; [exact Hs | exact Hsq].
Defined.

(** C2, as the design states it, fails on a single game: the season helper
    returns NaN for the standard deviation of the one game, not 0. *)
Lemma single_game_std_is_not_zero :
  exists st,
    get_player_season_stats Roster.find_players_by_full_name
      Roster.PlayerGameLog "LeBron James" "2022-23" = Ok st /\
    games_played st = 1%nat /\
    std_devs st points = NaN /\
    std_devs st points <> Fin 0%R /\
    std_devs st points <> std_spec (column (stat_column points) [Roster.g2]).
Proof.
  eexists. split; [reflexivity|]. split; [reflexivity|].
  split; [reflexivity|]. split; discriminate.
Qed.

(** C3. The coefficient of variation is 100 * (std / mean) for a positive
    mean (NaN where the standard deviation is NaN), 0 for a mean of 0, and
    its computation never divides by zero, whatever the games. *)
Theorem cv_guarded (st : Stats) (k : StatKey) :
  (exists v, cv (std_devs st k) (averages st k) = Value v) /\
  (forall a, averages st k = Fin a -> (0 < a)%Q ->
     cv (std_devs st k) (averages st k)
     = Value (match std_devs st k with
              | NaN => NaN
              | Fin s => Fin (100 * (s / Q2R a))%R
              end)) /\
  (forall a, averages st k = Fin a -> (a == 0)%Q ->
     cv (std_devs st k) (averages st k) = Value (Fin 0%R)) /\
  (forall df, exists v,
     cv (std_devs (stats_of df) k) (averages (stats_of df) k) = Value v).
Proof.
  assert (Hpos : forall (s : fval R) (a : Q), (0 < a)%Q ->
            cv s (Fin a) = Value (match s with
                                  | NaN => NaN
                                  | Fin x => Fin (100 * (x / Q2R a))%R
                                  end)).
  { intros s a Ha. unfold cv, gt0, truediv.
    destruct (Qle_bool a 0) eqn:E1; [apply Qle_bool_iff in E1; lra|].
    destruct (Qeq_bool a 0) eqn:E2; [apply Qeq_bool_iff in E2; lra|].
    destruct s; reflexivity. }
  assert (Htot : forall (s : fval R) (avg : fval Q), exists v, cv s avg = Value v).
  { intros s [|a]; [eexists; reflexivity|].
    destruct (Qlt_le_dec 0 a) as [Ha|Ha].
    - rewrite (Hpos s a Ha). eexists; reflexivity.
    - unfold cv, gt0. apply Qle_bool_iff in Ha. rewrite Ha.
      eexists; reflexivity. }
  split; [apply Htot|]. split; [|split].
  - intros a Ea Ha. rewrite Ea. apply Hpos. exact Ha.
  - intros a Ea Ha. rewrite Ea. unfold cv, gt0.
    assert (Hle : Qle_bool a 0 = true) by (apply Qle_bool_iff; lra).
    rewrite Hle. reflexivity.
  - intros df. apply Htot.
Qed.

Lemma cv_guarded_witness :
  cv (std_devs (stats_of [Roster.g1; Roster.g2; Roster.g3]) points)
     (averages (stats_of [Roster.g1; Roster.g2; Roster.g3]) points)
  = Value (match std_devs (stats_of [Roster.g1; Roster.g2; Roster.g3]) points with
           | NaN => NaN
           | Fin s => Fin (100 * (s / Q2R (60 / 3)))%R
           end) /\
  cv (std_devs (stats_of [Roster.g0; Roster.g0]) points)
     (averages (stats_of [Roster.g0; Roster.g0]) points)
  = Value (Fin 0%R).
Proof.
  split.
  - apply (proj1 (proj2 (cv_guarded (stats_of [Roster.g1; Roster.g2; Roster.g3])
                           points)) (60 / 3)%Q).
    + reflexivity.
    + reflexivity.
  - apply (proj1 (proj2 (proj2
             (cv_guarded (stats_of [Roster.g0; Roster.g0]) points))) (0 / 2)%Q).
    + reflexivity.
    + reflexivity.
Defined.

(** * Further properties of the code *)

Lemma List_filter_sublist {A} (f : A -> bool) (l : list A) :
  sublist (List.filter f l) l.
Proof.
  induction l as [|x l IH]; simpl; [constructor|].
  destruct (f x); [apply sublist_skip | apply sublist_cons]; exact IH.
Qed.

Lemma List_filter_length_le {A} (f : A -> bool) (l : list A) :
  (length (List.filter f l) <= length l)%nat.
Proof. apply sublist_length, List_filter_sublist. Qed.

(** ** Team resolution, continued *)

Section ResolverFacts.

Variable find_team_by_abbreviation : string -> option Team.
Variable find_teams_by_full_name : string -> list Team.
Variable find_teams_by_nickname : string -> list Team.

Abbreviation abbreviation_stage := (abbreviation_stage find_team_by_abbreviation).
Abbreviation nickname_stage := (nickname_stage find_teams_by_nickname).
Abbreviation candidates_formula :=
  (candidates_formula find_team_by_abbreviation find_teams_by_full_name
     find_teams_by_nickname).
Abbreviation candidates_percentile :=
  (candidates_percentile find_team_by_abbreviation find_teams_by_full_name
     find_teams_by_nickname).
Abbreviation find_team_formula :=
  (find_team_formula find_team_by_abbreviation find_teams_by_full_name
     find_teams_by_nickname).
Abbreviation find_team_percentile :=
  (find_team_percentile find_team_by_abbreviation find_teams_by_full_name
     find_teams_by_nickname).
Abbreviation find_team_abbreviation :=
  (find_team_abbreviation find_team_by_abbreviation find_teams_by_full_name
     find_teams_by_nickname).

Lemma nickname_stage_sublist text :
  sublist (nickname_stage text) (find_teams_by_nickname text).
Proof.
  unfold nickname_stage.
  destruct (truthy _ && _); [|reflexivity].
  match goal with |- context [truthy ?l] => destruct (truthy l) end;
    [apply List_filter_sublist | reflexivity].
Qed.

Lemma nickname_stage_nil_iff text :
  nickname_stage text = [] <-> find_teams_by_nickname text = [].
Proof.
  unfold nickname_stage.
  destruct (find_teams_by_nickname text) as [|t l] eqn:E; [simpl; tauto|].
  split; [|discriminate].
  destruct (truthy (t :: l) && _); [|discriminate].
  match goal with |- context [truthy ?x] => destruct x eqn:Ex end;
    simpl; discriminate.
Qed.

Lemma nickname_stage_small text :
  (length (find_teams_by_nickname text) <= 1)%nat ->
  nickname_stage text = find_teams_by_nickname text.
Proof.
  intros H. unfold nickname_stage.
  destruct (find_teams_by_nickname text) as [|t [|t' l]]; simpl in *;
    try reflexivity; lia.
Qed.

Lemma outcome_formula text :
  outcome (find_team_formula text) = outcome_of (candidates_formula text).
Proof.
  unfold find_team_formula.
  destruct (candidates_formula text) as [|t [|t' l]]; reflexivity.
Qed.

Lemma outcome_percentile text :
  outcome (find_team_percentile text) = outcome_of (candidates_percentile text).
Proof.
  unfold find_team_percentile.
  destruct (candidates_percentile text) as [|t [|t' l]]; reflexivity.
Qed.

Lemma first_nonempty_nil_iff (stages : list (list Team)) :
  first_nonempty stages = [] <-> Forall (fun s => s = []) stages.
Proof.
  induction stages as [|s stages IH]; simpl.
  - split; [constructor | reflexivity].
  - destruct s as [|t l]; simpl.
    + rewrite IH. split; [intros H; constructor; auto | intros H; inversion H; auto].
    + split; [discriminate | intros H; inversion H; discriminate].
Qed.

(** X1. A text of at most three characters whose upper-case form is a team
    abbreviation resolves to that team on every path, whatever the name
    searches would return for it. *)
Theorem abbreviation_short_circuit (text : string) (t : Team) :
  (String.length text <= 3)%nat ->
  find_team_by_abbreviation (Str.upper text) = Some t ->
  find_team_formula text = Ok t /\
  find_team_percentile text = Ok t /\
  find_team_abbreviation text = Some (abbreviation t).
Proof.
  intros Hlen Ha.
  assert (Hs : abbreviation_stage text = [t]).
  { unfold abbreviation_stage.
    destruct (Nat.leb_spec (String.length text) 3); [|lia]. rewrite Ha. reflexivity. }
  unfold find_team_formula, find_team_percentile, find_team_abbreviation,
    candidates_formula, candidates_percentile.
  rewrite Hs. simpl. auto.
Qed.

(** X2. A team is reported as not found exactly when the abbreviation
    stage, the full-name search and the nickname search all come back
    empty; this is so on the stats path and on the percentile path, and the
    front end's resolver then answers [None]. *)
Theorem team_not_found_iff (text : string) :
  (fails_with (find_team_formula text) NotFound <->
     abbreviation_stage text = [] /\ find_teams_by_full_name text = [] /\
     find_teams_by_nickname text = []) /\
  (fails_with (find_team_percentile text) NotFound <->
     abbreviation_stage text = [] /\ find_teams_by_full_name text = [] /\
     find_teams_by_nickname text = []) /\
  (abbreviation_stage text = [] -> find_teams_by_full_name text = [] ->
   find_teams_by_nickname text = [] ->
   find_team_formula text = Raise (TeamNotFound text) /\
   find_team_percentile text = Raise (TeamNotFound text) /\
   find_team_abbreviation text = None).
Proof.
  assert (Hf : fails_with (find_team_formula text) NotFound <->
               candidates_formula text = []).
  { unfold find_team_formula.
    destruct (candidates_formula text) as [|t [|t' l]]; simpl; split;
      try discriminate; try (intros (e & He & Hk); congruence).
    - intros _. eexists; split; reflexivity.
    - intros (e & He & Hk). injection He as <-. discriminate. }
  assert (Hp : fails_with (find_team_percentile text) NotFound <->
               candidates_percentile text = []).
  { unfold find_team_percentile.
    destruct (candidates_percentile text) as [|t [|t' l]]; simpl; split;
      try discriminate; try (intros (e & He & Hk); congruence).
    - intros _. eexists; split; reflexivity.
    - intros (e & He & Hk). injection He as <-. discriminate. }
  assert (Hcf : candidates_formula text = [] <->
                abbreviation_stage text = [] /\ find_teams_by_full_name text = [] /\
                find_teams_by_nickname text = []).
  { rewrite candidates_formula_cascade. unfold cascade_spec.
    rewrite first_nonempty_nil_iff, !Forall_cons, Forall_nil.
    rewrite nickname_stage_nil_iff. tauto. }
  assert (Hcp : candidates_percentile text = [] <->
                abbreviation_stage text = [] /\ find_teams_by_full_name text = [] /\
                find_teams_by_nickname text = []).
  { rewrite candidates_percentile_order.
    rewrite first_nonempty_nil_iff, !Forall_cons, Forall_nil. tauto. }
  split; [rewrite Hf; exact Hcf|]. split; [rewrite Hp; exact Hcp|].
  intros Ha Hfn Hn.
  assert (E1 : candidates_formula text = []) by (apply Hcf; auto).
  assert (E2 : candidates_percentile text = []) by (apply Hcp; auto).
  unfold find_team_formula, find_team_percentile, find_team_abbreviation.
  rewrite E1, E2. auto.
Qed.

(** X3. The stats path and the percentile path resolve a text alike (the
    same team, or an error of the same kind) whenever the abbreviation stage
    answers, or the nickname search finds nothing, or the two name searches
    find the same teams, or the full-name search finds nothing and the
    nickname search at most one team. *)
Theorem resolvers_agree (text : string) :
  abbreviation_stage text <> [] \/
  find_teams_by_nickname text = [] \/
  find_teams_by_full_name text = find_teams_by_nickname text \/
  (find_teams_by_full_name text = [] /\
   (length (find_teams_by_nickname text) <= 1)%nat) ->
  outcome (find_team_formula text) = outcome (find_team_percentile text).
Proof.
  intros H. rewrite outcome_formula, outcome_percentile.
  unfold candidates_formula, candidates_percentile.
  destruct (abbreviation_stage text) as [|a l] eqn:Ea; [|reflexivity].
  cbn [truthy negb].
  destruct H as [H|[H|[H|[H1 H2]]]].
  - congruence.
  - rewrite H. cbn [truthy negb].
    destruct (find_teams_by_full_name text) as [|t l] eqn:Ef; [|reflexivity].
    cbn [truthy negb]. f_equal. apply nickname_stage_nil_iff. exact H.
  - rewrite H.
    destruct (find_teams_by_nickname text) as [|t l] eqn:En; [|reflexivity].
    cbn [truthy negb]. f_equal. apply nickname_stage_nil_iff. exact En.
  - rewrite H1. cbn [truthy negb]. rewrite (nickname_stage_small text H2).
    destruct (find_teams_by_nickname text); reflexivity.
Qed.

(** X4. The narrowing of the nickname stage never loses the last candidate:
    the stage is empty only when the nickname search is, it returns teams
    of the search in their order, and when exactly one team of the search
    has the text as its nickname up to case, and the earlier stages found
    nothing, that team is the resolution. *)
Theorem narrowing_keeps_a_candidate (text : string) :
  (nickname_stage text = [] <-> find_teams_by_nickname text = []) /\
  sublist (nickname_stage text) (find_teams_by_nickname text) /\
  (forall t,
     abbreviation_stage text = [] ->
     find_teams_by_full_name text = [] ->
     List.filter (fun t => String.eqb (Str.lower (nickname t)) (Str.lower text))
       (find_teams_by_nickname text) = [t] ->
     find_team_formula text = Ok t /\
     find_team_abbreviation text = Some (abbreviation t)).
Proof.
  split; [apply nickname_stage_nil_iff|].
  split; [apply nickname_stage_sublist|].
  intros t Ha Hf He.
  assert (Hc : candidates_formula text = [t]).
  { unfold candidates_formula. rewrite Ha. cbn [truthy negb]. rewrite Hf.
    cbn [truthy negb]. unfold nickname_stage.
    destruct (find_teams_by_nickname text) as [|t1 [|t2 l]] eqn:En.
    - discriminate.
    - simpl in *. destruct (String.eqb _ _); congruence.
    - cbn [truthy length Nat.ltb Nat.leb andb]. rewrite He. reflexivity. }
  unfold find_team_formula, find_team_abbreviation. rewrite Hc. auto.
Qed.

End ResolverFacts.

Lemma abbreviation_short_circuit_witness :
  find_team_formula Roster.find_team_by_abbreviation
    Roster.find_teams_by_full_name Roster.find_teams_by_nickname "gsw"
  = Ok Roster.warriors /\
  find_team_percentile Roster.find_team_by_abbreviation
    Roster.find_teams_by_full_name Roster.find_teams_by_nickname "gsw"
  = Ok Roster.warriors /\
  find_team_abbreviation Roster.find_team_by_abbreviation
    Roster.find_teams_by_full_name Roster.find_teams_by_nickname "gsw"
  = Some "GSW".
Proof.
  apply (abbreviation_short_circuit Roster.find_team_by_abbreviation
           Roster.find_teams_by_full_name Roster.find_teams_by_nickname
           "gsw" Roster.warriors).
  - simpl. lia.
  - reflexivity.
Defined.

Lemma resolvers_agree_witness :
  outcome (find_team_formula Roster.find_team_by_abbreviation
             Roster.find_teams_by_full_name Roster.find_teams_by_nickname "Lakers")
  = outcome (find_team_percentile Roster.find_team_by_abbreviation
               Roster.find_teams_by_full_name Roster.find_teams_by_nickname "Lakers").
Proof.
  apply (resolvers_agree Roster.find_team_by_abbreviation
           Roster.find_teams_by_full_name Roster.find_teams_by_nickname "Lakers").
  right. right. left. reflexivity.
Defined.

Lemma team_not_found_iff_witness :
  find_team_formula Roster.find_team_by_abbreviation
    Roster.find_teams_by_full_name Roster.find_teams_by_nickname "Sonics"
  = Raise (TeamNotFound "Sonics") /\
  find_team_percentile Roster.find_team_by_abbreviation
    Roster.find_teams_by_full_name Roster.find_teams_by_nickname "Sonics"
  = Raise (TeamNotFound "Sonics") /\
  find_team_abbreviation Roster.find_team_by_abbreviation
    Roster.find_teams_by_full_name Roster.find_teams_by_nickname "Sonics"
  = None.
Proof.
  apply (proj2 (proj2 (team_not_found_iff Roster.find_team_by_abbreviation
           Roster.find_teams_by_full_name Roster.find_teams_by_nickname "Sonics")));
    reflexivity.
Defined.

Lemma narrowing_keeps_a_candidate_witness :
  find_team_formula (fun _ => None) (fun _ => [])
    (fun _ => [Roster.nets; Roster.hornets]) "Nets"
  = Ok Roster.nets /\
  find_team_abbreviation (fun _ => None) (fun _ => [])
    (fun _ => [Roster.nets; Roster.hornets]) "Nets"
  = Some "BKN".
Proof.
  apply (proj2 (proj2 (narrowing_keeps_a_candidate (fun _ => None) (fun _ => [])
           (fun _ => [Roster.nets; Roster.hornets]) "Nets")) Roster.nets);
    reflexivity.
Defined.

(** ** Opponent filter, continued *)

Lemma search_ignorecase_lower p1 p2 s :
  Str.lower p1 = Str.lower p2 ->
  Str.search_ignorecase p1 s = Str.search_ignorecase p2 s.
Proof. unfold Str.search_ignorecase. intros ->. reflexivity. Qed.

Lemma vs_team_length df opponent_abbrev :
  (length (vs_team df opponent_abbrev) <= length df)%nat.
Proof. unfold vs_team. apply length_filter. Qed.

Lemma vs_team_all_iff df opponent_abbrev :
  vs_team df opponent_abbrev = df <->
  forall g, g ∈ df -> plays opponent_abbrev g.
Proof.
  induction df as [|g df IH].
  - split; [intros _ g Hg; inversion Hg | reflexivity].
  - rewrite vs_team_cons.
    destruct (str_contains opponent_abbrev false (MATCHUP g)) eqn:E.
    + split.
      * intros H. injection H as H. intros g' Hg'.
        apply elem_of_cons in Hg' as [->|Hg'].
        -- apply str_contains_plays. exact E.
        -- apply IH; assumption.
      * intros H. f_equal. apply IH. intros g' Hg'. apply H. right. exact Hg'.
    + split.
      * intros H. pose proof (vs_team_length df opponent_abbrev) as Hl.
        rewrite H in Hl. simpl in Hl. lia.
      * intros H. assert (Hp : plays opponent_abbrev g) by (apply H; left).
        apply str_contains_plays in Hp. congruence.
Qed.

(** X5. Filtering is idempotent and reads the abbreviation up to case:
    filtering the filtered games again changes nothing, and two
    abbreviations with the same lower-case form select the same games. *)
Theorem vs_team_idempotent_caseless (df : list GameRecord) (a b : string) :
  vs_team (vs_team df a) a = vs_team df a /\
  (Str.lower a = Str.lower b -> vs_team df a = vs_team df b).
Proof.
  split.
  - apply vs_team_all_iff. intros g Hg. apply vs_team_elem_of in Hg. tauto.
  - intros Hab. induction df as [|g df IH]; [reflexivity|].
    rewrite !vs_team_cons, IH.
    assert (E : str_contains a false (MATCHUP g) = str_contains b false (MATCHUP g)).
    { unfold str_contains. destruct (MATCHUP g); [|reflexivity].
      apply search_ignorecase_lower. exact Hab. }
    rewrite E. reflexivity.
Qed.

Lemma vs_team_idempotent_caseless_witness :
  vs_team [Roster.g1; Roster.g2; Roster.g3; Roster.g4] "gsw"
  = vs_team [Roster.g1; Roster.g2; Roster.g3; Roster.g4] "GSW".
Proof.
  apply (proj2 (vs_team_idempotent_caseless
                  [Roster.g1; Roster.g2; Roster.g3; Roster.g4] "gsw" "GSW")).
  reflexivity.
Defined.

(** X6. The filter keeps the whole log exactly when every game's matchup
    contains the abbreviation. As a matchup names both teams, the
    abbreviation of the player's own team selects every game that has a
    matchup. *)
Theorem vs_team_keeps_all_iff (df : list GameRecord) (opponent_abbrev : string) :
  vs_team df opponent_abbrev = df <->
  forall g, g ∈ df -> plays opponent_abbrev g.
Proof. apply vs_team_all_iff. Qed.

Lemma vs_team_keeps_all_iff_witness :
  vs_team [Roster.g1; Roster.g2; Roster.g3] "LAL"
  = [Roster.g1; Roster.g2; Roster.g3].
Proof.
  apply (proj2 (vs_team_keeps_all_iff [Roster.g1; Roster.g2; Roster.g3] "LAL")).
  intros g Hg. apply str_contains_plays.
  repeat (apply elem_of_cons in Hg as [->|Hg]; [reflexivity|]).
  inversion Hg.
Defined.

Section CompositionFacts.

Variable find_players_by_full_name : string -> list Player.
Variable find_team_by_abbreviation : string -> option Team.
Variable find_teams_by_full_name : string -> list Team.
Variable find_teams_by_nickname : string -> list Team.
Variable other_exception : Call -> option string.
Variable PlayerGameLog_season : Z -> string -> list GameRecord.
Variable PlayerGameLog_vs_team : Z -> string -> list GameRecord.
Variable PlayerGameLog_game_log : Z -> string -> list GameRecord.

Abbreviation find_player := (find_player find_players_by_full_name).
Abbreviation find_team_formula :=
  (find_team_formula find_team_by_abbreviation find_teams_by_full_name
     find_teams_by_nickname).
Abbreviation find_team_percentile :=
  (find_team_percentile find_team_by_abbreviation find_teams_by_full_name
     find_teams_by_nickname).
Abbreviation find_team_abbreviation :=
  (find_team_abbreviation find_team_by_abbreviation find_teams_by_full_name
     find_teams_by_nickname).
Abbreviation get_player_season_stats :=
  (get_player_season_stats find_players_by_full_name).
Abbreviation get_player_vs_team_stats :=
  (get_player_vs_team_stats find_players_by_full_name find_team_by_abbreviation
     find_teams_by_full_name find_teams_by_nickname).
Abbreviation get_player_percentiles_season :=
  (get_player_percentiles_season find_players_by_full_name).
Abbreviation get_player_percentiles_vs_team :=
  (get_player_percentiles_vs_team find_players_by_full_name
     find_team_by_abbreviation find_teams_by_full_name find_teams_by_nickname).
Abbreviation get_player_game_log :=
  (get_player_game_log find_players_by_full_name).
Abbreviation season_data_of :=
  (season_data_of find_players_by_full_name find_team_by_abbreviation
     find_teams_by_full_name find_teams_by_nickname other_exception
     PlayerGameLog_season PlayerGameLog_vs_team PlayerGameLog_game_log).

(** A successful opponent helper, taken apart; [log] is what the provider
    answers to its request. *)
Lemma vs_team_stats_ok_inv log player_name season opponent_team st :
  get_player_vs_team_stats log player_name season opponent_team = Ok st ->
  exists pid team,
    find_player player_name = Ok pid /\
    find_team_formula opponent_team = Ok team /\
    log pid season <> [] /\
    vs_team (log pid season) (abbreviation team) <> [] /\
    st = stats_of (vs_team (log pid season) (abbreviation team)).
Proof.
  intros H. unfold get_player_vs_team_stats in H.
  destruct (find_player player_name) as [pid|e] eqn:Ep; [|discriminate].
  destruct (find_team_formula opponent_team) as [team|e] eqn:Et; [|discriminate].
  cbn in H.
  destruct (log pid season) as [|g df] eqn:Ed; [discriminate|].
  cbn [truthy negb] in H.
  destruct (vs_team (g :: df) (abbreviation team)) as [|g' l] eqn:Ev;
    [discriminate|].
  cbn in H. injection H as <-.
  exists pid, team. rewrite Ed, Ev. repeat split; discriminate.
Qed.

Lemma percentiles_vs_team_ok_inv log player_name season opponent_team r :
  get_player_percentiles_vs_team log player_name season opponent_team = Ok r ->
  exists pid team,
    find_player player_name = Ok pid /\
    find_team_percentile opponent_team = Ok team /\
    log pid season <> [] /\
    vs_team (log pid season) (abbreviation team) <> [] /\
    r = percentile_result (vs_team (log pid season) (abbreviation team))
          player_name season (Some (full_name team)).
Proof.
  intros H. unfold get_player_percentiles_vs_team in H.
  destruct (find_player player_name) as [pid|e] eqn:Ep; [|discriminate].
  destruct (find_team_percentile opponent_team) as [team|e] eqn:Et; [|discriminate].
  cbn in H.
  destruct (log pid season) as [|g df] eqn:Ed; [discriminate|].
  cbn [truthy negb] in H.
  destruct (vs_team (g :: df) (abbreviation team)) as [|g' l] eqn:Ev;
    [discriminate|].
  cbn in H. injection H as <-.
  exists pid, team. rewrite Ed, Ev. repeat split; discriminate.
Qed.

(** X7. An opponent helper and the season helper of the same kind each
    fetch the game log. When the provider answers both requests with the
    same log, then whenever the opponent helper returns a result the season
    helper returns one too for that player and season, and the games played
    against the opponent are at least one and at most the season's
    games. *)
Theorem vs_team_games_within_season (player_name season opponent_team : string) :
  (forall pid, PlayerGameLog_vs_team pid season = PlayerGameLog_season pid season) ->
  (forall st,
     get_player_vs_team_stats PlayerGameLog_vs_team
       player_name season opponent_team = Ok st ->
     exists st0,
       get_player_season_stats PlayerGameLog_season player_name season = Ok st0 /\
       (1 <= games_played st <= games_played st0)%nat) /\
  (forall r,
     get_player_percentiles_vs_team PlayerGameLog_vs_team
       player_name season opponent_team = Ok r ->
     exists r0,
       get_player_percentiles_season PlayerGameLog_season player_name season
       = Ok r0 /\
       (1 <= pr_games_played r <= pr_games_played r0)%nat).
Proof.
  intros Hsame. split.
  - intros st H.
    apply vs_team_stats_ok_inv in H as (pid & team & Hp & Ht & Hd & Hv & ->).
    rewrite (season_stats_resolved _ PlayerGameLog_season _ season _ Hp).
    rewrite (Hsame pid) in *.
    destruct (PlayerGameLog_season pid season) as [|g df] eqn:Ed; [congruence|].
    eexists. split; [reflexivity|]. cbn [stats_of games_played].
    pose proof (vs_team_length (g :: df) (abbreviation team)).
    destruct (vs_team (g :: df) (abbreviation team)); [congruence|].
    simpl in *. lia.
  - intros r H.
    apply percentiles_vs_team_ok_inv in H as (pid & team & Hp & Ht & Hd & Hv & ->).
    rewrite (percentiles_season_resolved _ PlayerGameLog_season _ season _ Hp).
    rewrite (Hsame pid) in *.
    destruct (PlayerGameLog_season pid season) as [|g df] eqn:Ed; [congruence|].
    eexists. split; [reflexivity|].
    pose proof (vs_team_length (g :: df) (abbreviation team)).
    destruct (vs_team (g :: df) (abbreviation team)); [congruence|].
    change (pr_games_played (percentile_result ?d _ _ _)) with (length d).
    simpl in *. lia.
Qed.

(** Season helper and game-log helper check the same things of the log
    they are given, and fail alike. *)
Lemma season_stats_and_game_log log player_name season :
  match get_player_game_log log player_name season with
  | Ok df => df <> [] /\
             get_player_season_stats log player_name season = Ok (stats_of df)
  | Raise e => get_player_season_stats log player_name season = Raise e
  end.
Proof.
  unfold get_player_game_log, get_player_season_stats.
  destruct (find_player player_name) as [pid|e]; [|reflexivity]. cbn.
  destruct (log pid season) as [|g df]; cbn; [reflexivity|].
  split; [discriminate | reflexivity].
Qed.

Lemma helpers_same_log (log1 log2 : Z -> string -> list GameRecord) season :
  (forall pid, log1 pid season = log2 pid season) ->
  (forall player_name,
     get_player_season_stats log1 player_name season
     = get_player_season_stats log2 player_name season) /\
  (forall player_name opponent_team,
     get_player_vs_team_stats log1 player_name season opponent_team
     = get_player_vs_team_stats log2 player_name season opponent_team).
Proof.
  intros H. split.
  - intros player_name. unfold get_player_season_stats.
    destruct (find_player player_name) as [pid|e]; [|reflexivity]. cbn.
    rewrite (H pid). reflexivity.
  - intros player_name opponent_team. unfold get_player_vs_team_stats.
    destruct (find_player player_name) as [pid|e]; [|reflexivity].
    destruct (find_team_formula opponent_team) as [team|e]; [|reflexivity].
    cbn. rewrite (H pid). reflexivity.
Qed.

(** The keys of the two statistics steps do not depend on the last step. *)
Lemma season_data_stats player team season :
  let d := season_data_of player team season in
  let s1 := attempt (other_exception (SeasonStatsCall player season))
              (get_player_season_stats PlayerGameLog_season player season) in
  let s2 := attempt (other_exception (VsTeamStatsCall player season team))
              (get_player_vs_team_stats PlayerGameLog_vs_team player season team) in
  sd_season d = season /\
  season_stats d = match s1 with inl st => Some st | inr _ => None end /\
  season_error d = match s1 with inl _ => None | inr e => Some e end /\
  vs_team_stats d = match s2 with inl st => Some st | inr _ => None end /\
  vs_team_error d = match s2 with inl _ => None | inr e => Some e end.
Proof.
  intros d s1 s2. subst d s1 s2. unfold season_data_of.
  destruct (attempt (other_exception (GameLogCall player season)) _) as [df|e];
    [|repeat split].
  destruct (other_exception (TeamSearchCall team)); [repeat split|].
  destruct (find_team_abbreviation team) as [a|];
    [destruct (negb (String.eqb a EmptyString))|]; repeat split.
Qed.

(** The keys of the last step, case by case. *)
Lemma season_data_log player team season :
  let d := season_data_of player team season in
  match attempt (other_exception (GameLogCall player season))
          (get_player_game_log PlayerGameLog_game_log player season) with
  | inr e =>
      game_log d = None /\ vs_team_log d = None /\ team_not_found d = false /\
      available_matchups d = None /\ game_log_error d = Some e
  | inl df =>
      df <> [] /\ game_log d = Some df /\
      match other_exception (TeamSearchCall team) with
      | Some text =>
          vs_team_log d = None /\ team_not_found d = false /\
          available_matchups d = None /\
          game_log_error d = Some (OfException text)
      | None =>
          game_log_error d = None /\
          match find_team_abbreviation team with
          | Some a =>
              if String.eqb a EmptyString
              then vs_team_log d = None /\ team_not_found d = true /\
                   available_matchups d = Some (unique (map MATCHUP df))
              else team_not_found d = false /\
                   match vs_team df a with
                   | [] => vs_team_log d = None /\
                           available_matchups d = Some (unique (map MATCHUP df))
                   | games => vs_team_log d = Some games /\
                              available_matchups d = None
                   end
          | None => vs_team_log d = None /\ team_not_found d = true /\
                    available_matchups d = Some (unique (map MATCHUP df))
          end
      end
  end.
Proof.
  intros d. subst d. unfold season_data_of.
  destruct (attempt (other_exception (GameLogCall player season)) _)
    as [df|e] eqn:Ea; [|repeat split].
  assert (Hne : df <> []).
  { unfold attempt in Ea.
    destruct (other_exception (GameLogCall player season)); [discriminate|].
    pose proof (season_stats_and_game_log PlayerGameLog_game_log player season) as H.
    destruct (get_player_game_log PlayerGameLog_game_log player season)
      as [df'|e']; [|discriminate].
    injection Ea as <-. tauto. }
  split; [exact Hne|].
  destruct (other_exception (TeamSearchCall team)); [repeat split|].
  destruct df as [|g0 df0]; [congruence|].
  destruct (find_team_abbreviation team) as [a|]; [|repeat split].
  destruct (String.eqb a EmptyString); cbn [negb]; [repeat split|].
  destruct (vs_team (g0 :: df0) a); repeat split.
Qed.

(** X8. The front end's season card and its game-log table come from two
    helpers, each with its own request. When the provider answers both
    requests with the same log and neither call is cut short by an
    exception of another kind than [ValueError], the two stand or fall
    together: either both the season statistics and the game log are there,
    the statistics being those of the log's games, or neither is; and the
    two stored errors are the same unless the team search raises after the
    log is stored. *)
Theorem season_card_and_log_together (player team season : string) :
  (forall pid, PlayerGameLog_season pid season = PlayerGameLog_game_log pid season) ->
  other_exception (SeasonStatsCall player season) = None ->
  other_exception (GameLogCall player season) = None ->
  let d := season_data_of player team season in
  (season_stats d = None <-> game_log d = None) /\
  (other_exception (TeamSearchCall team) = None ->
   season_error d = game_log_error d) /\
  (forall df, game_log d = Some df ->
     df <> [] /\ season_stats d = Some (stats_of df)).
Proof.
  intros Hsame H1 H3 d.
  destruct (season_data_stats player team season) as (_ & Hs & He & _).
  pose proof (season_data_log player team season) as Hl.
  cbv zeta in Hs, He, Hl. fold d in Hs, He, Hl.
  rewrite Hs, He. clear Hs He. rewrite H1, H3 in *. unfold attempt in *.
  rewrite (proj1 (helpers_same_log _ _ season Hsame) player).
  pose proof (season_stats_and_game_log PlayerGameLog_game_log player season) as H.
  destruct (get_player_game_log PlayerGameLog_game_log player season) as [df|e].
  - destruct H as [_ ->]. destruct Hl as (Hne & Hg & Hl). rewrite Hg.
    split; [split; discriminate|]. split.
    + intros H4. rewrite H4 in Hl. destruct Hl as [-> _]. reflexivity.
    + intros df' E. injection E as <-. auto.
  - rewrite H. destruct Hl as (Hg & _ & _ & _ & Hge). rewrite Hg, Hge.
    split; [tauto|]. split; [reflexivity | discriminate].
Qed.

(** X9. The opponent log of the front end is never an empty table: it is
    absent or has a game, taken from the game log in its order. When the
    team is reported as not found, the game log is there and the opponent
    log is not. The list of available matchups is there exactly when the
    game log is there, the opponent log is not and no error is stored for
    the step. A game log and an error are stored together only when the
    team search raised after the log was stored; then neither the opponent
    log nor the matchups nor the not-found mark is set. *)
Theorem opponent_log_invariants (player team season : string) :
  let d := season_data_of player team season in
  vs_team_log d <> Some [] /\
  game_log d <> Some [] /\
  (team_not_found d = true -> vs_team_log d = None /\ is_Some (game_log d)) /\
  (is_Some (available_matchups d) <->
     is_Some (game_log d) /\ vs_team_log d = None /\ game_log_error d = None) /\
  (is_Some (game_log d) -> is_Some (game_log_error d) ->
     is_Some (other_exception (TeamSearchCall team)) /\
     vs_team_log d = None /\ available_matchups d = None /\
     team_not_found d = false) /\
  (forall games, vs_team_log d = Some games ->
     exists df a, game_log d = Some df /\ games = vs_team df a /\ sublist games df).
Proof.
  intros d. pose proof (season_data_log player team season) as Hl.
  cbv zeta in Hl. fold d in Hl.
  destruct (attempt (other_exception (GameLogCall player season)) _) as [df|e].
  2:{ destruct Hl as (-> & -> & -> & -> & ->). option_facts. }
  destruct Hl as (Hne & -> & Hl).
  assert (Hdf : Some df <> Some []) by congruence.
  destruct (other_exception (TeamSearchCall team)) as [text|].
  { destruct Hl as (-> & -> & -> & ->). option_facts. exact Hdf. }
  destruct Hl as (-> & Hl).
  destruct (find_team_abbreviation team) as [a|].
  2:{ destruct Hl as (-> & -> & ->). option_facts. exact Hdf. }
  destruct (String.eqb a EmptyString).
  { destruct Hl as (-> & -> & ->). option_facts. exact Hdf. }
  destruct Hl as (-> & Hl).
  destruct (vs_team df a) as [|g l] eqn:Ev.
  { destruct Hl as (-> & ->). option_facts. exact Hdf. }
  destruct Hl as (-> & ->). option_facts; try exact Hdf.
  exists df, a.
  match goal with E : Some _ = Some _ |- _ => injection E as <- end.
  split; [reflexivity|]. split; [symmetry; exact Ev|].
  rewrite <- Ev. apply sublist_filter.
Qed.

(** X10. The statistics card against the opponent and the opponent log of
    the front end come from two requests. When the provider answers both
    with the same log and neither the game-log call nor the team search is
    cut short by an exception of another kind, they agree: when the card
    has statistics, the resolved team having a non-empty abbreviation, the
    opponent log is there, the statistics are those of its games, and the
    games played on the card are the rows of the table. *)
Theorem stats_card_matches_log (player team season : string) (st : Stats) :
  (forall pid, PlayerGameLog_vs_team pid season = PlayerGameLog_game_log pid season) ->
  other_exception (GameLogCall player season) = None ->
  other_exception (TeamSearchCall team) = None ->
  let d := season_data_of player team season in
  vs_team_stats d = Some st ->
  exists t,
    find_team_formula team = Ok t /\
    (abbreviation t <> EmptyString ->
     exists games,
       vs_team_log d = Some games /\
       st = stats_of games /\
       games_played st = length games).
Proof.
  intros Hsame H3 H4 d Hst.
  destruct (season_data_stats player team season) as (_ & _ & _ & Hv & _).
  pose proof (season_data_log player team season) as Hl.
  cbv zeta in Hv, Hl. fold d in Hv, Hl.
  rewrite Hv in Hst. clear Hv. rewrite H3, H4 in Hl. unfold attempt in *.
  destruct (other_exception (VsTeamStatsCall player season team)); [discriminate|].
  destruct (get_player_vs_team_stats PlayerGameLog_vs_team player season team)
    as [st'|e] eqn:Ev; [|discriminate].
  injection Hst as ->.
  apply vs_team_stats_ok_inv in Ev as (pid & t & Hp & Ht & Hd & Hv & ->).
  exists t. split; [exact Ht|]. intros Ha.
  rewrite (Hsame pid) in *.
  rewrite (game_log_resolved _ PlayerGameLog_game_log _ season _ Hp) in Hl.
  destruct (PlayerGameLog_game_log pid season) as [|g df] eqn:Ed; [congruence|].
  rewrite (find_team_abbreviation_formula find_team_by_abbreviation
             find_teams_by_full_name find_teams_by_nickname team), Ht in Hl.
  assert (Hb : String.eqb (abbreviation t) EmptyString = false)
    by (apply String.eqb_neq; exact Ha).
  rewrite Hb in Hl. destruct Hl as (_ & _ & _ & _ & Hl).
  destruct (vs_team (g :: df) (abbreviation t)) as [|g' l] eqn:Ev; [congruence|].
  destruct Hl as [Hl _]. exists (g' :: l). repeat split. exact Hl.
Qed.

Lemma unique_elem_of (l : list (option string)) (x : option string) :
  x ∈ unique l <-> x ∈ l.
Proof.
  induction l as [|a l IH]; simpl; [tauto|].
  rewrite !elem_of_cons, <- IH, list_elem_of_In, filter_In, <- list_elem_of_In.
  rewrite negb_true_iff, bool_decide_eq_false.
  destruct (decide (x = a)) as [->|Hne]; [tauto|].
  split; [intros [?|[? ?]]; auto | intros [?|?]; [auto|right; split; congruence]].
Qed.

Lemma unique_NoDup (l : list (option string)) : NoDup (unique l).
Proof.
  induction l as [|a l IH]; simpl; [constructor|].
  apply NoDup_cons. split.
  - rewrite list_elem_of_In, filter_In, negb_true_iff, bool_decide_eq_false.
    tauto.
  - exact (sublist_NoDup _ _ IH (List_filter_sublist _ _)).
Qed.

Lemma unique_sublist (l : list (option string)) : sublist (unique l) l.
Proof.
  induction l as [|a l IH]; simpl; [constructor|].
  apply sublist_skip. etransitivity; [apply List_filter_sublist | exact IH].
Qed.

(** The values of the first rows come first: what makes the order that of
    the first occurrences. *)
Lemma unique_app_prefix (l1 l2 : list (option string)) :
  unique l1 `prefix_of` unique (l1 ++ l2).
Proof.
  induction l1 as [|a l1 [k IH]]; simpl; [apply prefix_nil|].
  rewrite IH, List.filter_app. eexists. reflexivity.
Qed.

(** X11. The matchups the front end lists when it has no opponent log are
    the matchup values of the season's log, each once, in the order of
    their first game: the matchups of the first games of the log, however
    many are taken, come first in the list. *)
Theorem available_matchups_unique (player team season : string)
    (ms : list (option string)) :
  let d := season_data_of player team season in
  available_matchups d = Some ms ->
  exists df,
    game_log d = Some df /\
    ms = unique (map MATCHUP df) /\
    NoDup ms /\
    (forall m, m ∈ ms <-> exists g, g ∈ df /\ MATCHUP g = m) /\
    sublist ms (map MATCHUP df) /\
    (forall n, unique (map MATCHUP (take n df)) `prefix_of` ms).
Proof.
  intros d H. pose proof (season_data_log player team season) as Hl.
  cbv zeta in Hl. fold d in Hl.
  destruct (attempt (other_exception (GameLogCall player season)) _) as [df|e].
  2:{ destruct Hl as (_ & _ & _ & Hl & _). congruence. }
  destruct Hl as (Hne & Hg & Hl). exists df. split; [exact Hg|].
  assert (Hms : ms = unique (map MATCHUP df)).
  { destruct (other_exception (TeamSearchCall team)) as [text|].
    { destruct Hl as (_ & _ & Hl & _). congruence. }
    destruct Hl as (_ & Hl).
    destruct (find_team_abbreviation team) as [a|].
    2:{ destruct Hl as (_ & _ & Hl). congruence. }
    destruct (String.eqb a EmptyString).
    { destruct Hl as (_ & _ & Hl). congruence. }
    destruct Hl as (_ & Hl).
    destruct (vs_team df a); destruct Hl as (_ & Hl); congruence. }
  split; [exact Hms|]. subst ms.
  split; [apply unique_NoDup|]. split; [|split; [apply unique_sublist|]].
  - intros m. rewrite unique_elem_of, list_elem_of_fmap.
    split; intros (g & H1 & H2); exists g; auto.
  - intros n. rewrite <- (take_drop n df) at 2. rewrite map_app.
    apply unique_app_prefix.
Qed.

End CompositionFacts.

Lemma vs_team_games_within_season_witness :
  exists st0,
    get_player_season_stats Roster.find_players_by_full_name Roster.PlayerGameLog
      "LeBron James" "2023-24" = Ok st0 /\
    (1 <= games_played (stats_of [Roster.g1; Roster.g3]) <= games_played st0)%nat.
Proof.
  apply (proj1 (vs_team_games_within_season Roster.find_players_by_full_name
           Roster.find_team_by_abbreviation Roster.find_teams_by_full_name
           Roster.find_teams_by_nickname Roster.PlayerGameLog
           Roster.PlayerGameLog "LeBron James" "2023-24" "Warriors"
           (fun pid => eq_refl))).
  reflexivity.
Defined.

Lemma season_card_and_log_together_witness :
  season_stats (season_data_of Roster.find_players_by_full_name
                  Roster.find_team_by_abbreviation Roster.find_teams_by_full_name
                  Roster.find_teams_by_nickname (fun _ => None)
                  Roster.PlayerGameLog Roster.PlayerGameLog Roster.PlayerGameLog
                  "LeBron James" "Warriors" "2023-24")
  = Some (stats_of [Roster.g1; Roster.g2; Roster.g3; Roster.g4]).
Proof.
  apply (proj2 (proj2 (season_card_and_log_together
           Roster.find_players_by_full_name
           Roster.find_team_by_abbreviation Roster.find_teams_by_full_name
           Roster.find_teams_by_nickname (fun _ => None)
           Roster.PlayerGameLog Roster.PlayerGameLog Roster.PlayerGameLog
           "LeBron James" "Warriors" "2023-24"
           (fun pid => eq_refl) eq_refl eq_refl))).
  reflexivity.
Defined.

Lemma stats_card_matches_log_witness :
  exists t,
    find_team_formula Roster.find_team_by_abbreviation
      Roster.find_teams_by_full_name Roster.find_teams_by_nickname "Warriors"
    = Ok t /\
    (abbreviation t <> EmptyString ->
     exists games,
       vs_team_log (season_data_of Roster.find_players_by_full_name
                      Roster.find_team_by_abbreviation
                      Roster.find_teams_by_full_name
                      Roster.find_teams_by_nickname (fun _ => None)
                      Roster.PlayerGameLog Roster.PlayerGameLog
                      Roster.PlayerGameLog
                      "LeBron James" "Warriors" "2023-24") = Some games /\
       stats_of [Roster.g1; Roster.g3] = stats_of games /\
       games_played (stats_of [Roster.g1; Roster.g3]) = length games).
Proof.
  apply (stats_card_matches_log Roster.find_players_by_full_name
           Roster.find_team_by_abbreviation Roster.find_teams_by_full_name
           Roster.find_teams_by_nickname (fun _ => None)
           Roster.PlayerGameLog Roster.PlayerGameLog Roster.PlayerGameLog
           "LeBron James" "Warriors" "2023-24" (stats_of [Roster.g1; Roster.g3])
           (fun pid => eq_refl) eq_refl eq_refl).
  reflexivity.
Defined.

Lemma available_matchups_unique_witness :
  exists df,
    game_log (season_data_of Roster.find_players_by_full_name
                Roster.find_team_by_abbreviation Roster.find_teams_by_full_name
                Roster.find_teams_by_nickname (fun _ => None)
                Roster.PlayerGameLog Roster.PlayerGameLog Roster.PlayerGameLog
                "LeBron James" "Rockets" "2023-24") = Some df /\
    [Some "LAL vs. GSW"; Some "LAL @ BOS"; None] = unique (map MATCHUP df) /\
    NoDup [Some "LAL vs. GSW"; Some "LAL @ BOS"; None] /\
    (forall m, m ∈ [Some "LAL vs. GSW"; Some "LAL @ BOS"; None] <->
               exists g, g ∈ df /\ MATCHUP g = m) /\
    sublist [Some "LAL vs. GSW"; Some "LAL @ BOS"; None] (map MATCHUP df) /\
    (forall n, unique (map MATCHUP (take n df))
               `prefix_of` [Some "LAL vs. GSW"; Some "LAL @ BOS"; None]).
Proof.
  apply (available_matchups_unique Roster.find_players_by_full_name
           Roster.find_team_by_abbreviation Roster.find_teams_by_full_name
           Roster.find_teams_by_nickname (fun _ => None)
           Roster.PlayerGameLog Roster.PlayerGameLog Roster.PlayerGameLog
           "LeBron James" "Rockets" "2023-24").
  reflexivity.
Defined.

(** ** Game log summaries *)

Lemma wl_counts (df : list GameRecord) :
  let w := length (List.filter (fun g => String.eqb (WL g) "W") df) in
  let l := length (List.filter (fun g => String.eqb (WL g) "L") df) in
  (w + l <= length df)%nat /\
  ((w + l)%nat = length df <->
   Forall (fun g => WL g = "W" \/ WL g = "L") df).
Proof.
  induction df as [|g df [IH1 IH2]]; simpl.
  - split; [lia|]. split; [constructor | reflexivity].
  - destruct (String.eqb_spec (WL g) "W") as [Ew|Ew];
      destruct (String.eqb_spec (WL g) "L") as [El|El]; simpl.
    + rewrite Ew in El. discriminate.
    + split; [lia|]. rewrite Forall_cons, <- IH2. split; [intros; split; auto; lia|].
      intros [_ H]. lia.
    + split; [lia|]. rewrite Forall_cons, <- IH2. split; [intros; split; auto; lia|].
      intros [_ H]. lia.
    + split; [lia|]. rewrite Forall_cons. split; [lia | tauto].
Qed.

(** X12. The summary line under the front end's game-log table counts
    every game that is not a win as a loss, so wins and losses always add
    up to the total; the summary of [gamelog.py] counts the rows marked
    "L", which are never more, and the two loss counts agree exactly when
    every row is marked "W" or "L". *)
Theorem log_table_summary_vs_summary (df : list GameRecord) :
  let '(total, w, l) := log_table_summary df in
  total = length df /\
  w = wins (summary_of df) /\
  (w + l)%nat = total /\
  (losses (summary_of df) <= l)%nat /\
  (losses (summary_of df) = l <->
   Forall (fun g => WL g = "W" \/ WL g = "L") df).
Proof.
  unfold log_table_summary. cbn [summary_of wins losses].
  destruct (wl_counts df) as [H1 H2]. cbv zeta in H1, H2.
  pose proof (List_filter_length_le (fun g => String.eqb (WL g) "W") df).
  repeat split; try lia.
  - intros E. apply H2. lia.
  - intros E. apply H2 in E. lia.
Qed.

Lemma search_vs_dot_spec (s : string) :
  StrMore.search_vs_dot s = true <->
  exists pre c post,
    s = (pre ++ "vs" ++ String c post)%string /\ c <> "010"%char.
Proof.
  induction s as [|a s IH].
  - simpl. split; [discriminate|].
    intros (pre & c & post & H & _). destruct pre; discriminate.
  - cbn [StrMore.search_vs_dot]. rewrite orb_true_iff, IH. split.
    + intros [H|(pre & c & post & H & Hc)].
      * destruct s as [|b [|c rest]]; try discriminate.
        apply andb_true_iff in H as [H Hc]. apply andb_true_iff in H as [Ha Hb].
        apply Ascii.eqb_eq in Ha, Hb. subst.
        exists EmptyString, c, rest. split; [reflexivity|].
        intros ->. discriminate.
      * exists (String a pre), c, post. split; [rewrite H; reflexivity | exact Hc].
    + intros (pre & c & post & H & Hc). destruct pre as [|p pre]; simpl in H.
      * left. cbv [String.append] in H. injection H as -> ->. cbn.
        destruct (Ascii.eqb_spec c "010"); [congruence | reflexivity].
      * right. injection H as _ H. exists pre, c, post. auto.
Qed.

(** X13. How the summary of [gamelog.py] tells home from away: a game is
    a home game exactly when its matchup has "vs" followed by one more
    character that is not a newline (the dot of the pattern stands for any
    character), an away game exactly when its matchup has "@"; a game
    without a matchup is neither. *)
Theorem home_away_reading (g : GameRecord) :
  (is_home g = true <->
   exists m pre c post,
     MATCHUP g = Some m /\ m = (pre ++ "vs" ++ String c post)%string /\
     c <> "010"%char) /\
  (is_away g = true <->
   exists m pre post,
     MATCHUP g = Some m /\ m = (pre ++ "@" ++ post)%string) /\
  (MATCHUP g = None -> is_home g = false /\ is_away g = false).
Proof.
  unfold is_home, is_away. destruct (MATCHUP g) as [m|].
  - split; [|split; [|discriminate]].
    + rewrite search_vs_dot_spec. split.
      * intros (pre & c & post & H & Hc). exists m, pre, c, post. auto.
      * intros (m' & pre & c & post & E & H & Hc). injection E as <-.
        exists pre, c, post. auto.
    + rewrite contains_spec. split.
      * intros (pre & post & H). exists m, pre, post. auto.
      * intros (m' & pre & post & E & H). injection E as <-.
        exists pre, post. auto.
  - split; [|split; [|auto]].
    + split; [discriminate | intros (m & ? & ? & ? & E & _); discriminate].
    + split; [discriminate | intros (m & ? & ? & E & _); discriminate].
Qed.

Lemma home_away_reading_witness :
  is_home Roster.g1 = true /\ is_away Roster.g2 = true /\
  is_home Roster.g4 = false /\ is_away Roster.g4 = false.
Proof.
  split; [|split].
  - apply (proj1 (home_away_reading Roster.g1)).
    exists "LAL vs. GSW", "LAL ", "."%char, " GSW".
    split; [reflexivity|]. split; [reflexivity | discriminate].
  - apply (proj1 (proj2 (home_away_reading Roster.g2))).
    exists "LAL @ BOS", "LAL ", " BOS". split; reflexivity.
  - apply (proj2 (proj2 (home_away_reading Roster.g4))). reflexivity.
Defined.

Section SummaryFacts.

Variable find_players_by_full_name : string -> list Player.
Variable PlayerGameLog : Z -> string -> list GameRecord.

(** X14. A game-log summary is returned exactly when the game log is, for
    the frame of the log, and fails with the log's error otherwise; a
    summary never has zero games, its wins and losses together, its home
    games and its away games are each at most the total, and wins and
    losses make up the total exactly when every row is marked "W" or
    "L". *)
Theorem game_log_summary_counts (player_name season : string) :
  match get_game_log_summary find_players_by_full_name PlayerGameLog
          player_name season with
  | Ok s =>
      get_player_game_log find_players_by_full_name PlayerGameLog
        player_name season = Ok (dataframe s) /\
      total_games s = length (dataframe s) /\
      (1 <= total_games s)%nat /\
      (wins s + losses s <= total_games s)%nat /\
      (home_games s <= total_games s)%nat /\
      (away_games s <= total_games s)%nat /\
      ((wins s + losses s)%nat = total_games s <->
       Forall (fun g => WL g = "W" \/ WL g = "L") (dataframe s))
  | Raise e =>
      get_player_game_log find_players_by_full_name PlayerGameLog
        player_name season = Raise e
  end.
Proof.
  unfold get_game_log_summary.
  destruct (get_player_game_log find_players_by_full_name PlayerGameLog
              player_name season) as [df|e] eqn:E; cbn; [|reflexivity].
  split; [reflexivity|]. split; [reflexivity|].
  destruct (wl_counts df) as [H1 H2]. cbv zeta in H1, H2.
  split.
  { unfold get_player_game_log in E.
    destruct (find_player find_players_by_full_name player_name) as [pid|e'];
      [|discriminate]. cbn in E.
    destruct (PlayerGameLog pid season) as [|g l]; cbn in E; [discriminate|].
    injection E as <-. simpl. lia. }
  split; [exact H1|].
  split; [apply List_filter_length_le|].
  split; [apply List_filter_length_le | exact H2].
Qed.

End SummaryFacts.

Example summary_of_season :
  let s := summary_of [Roster.g1; Roster.g2; Roster.g3; Roster.g4] in
  (total_games s, wins s, losses s, home_games s, away_games s)
  = (4, 4, 0, 2, 1)%nat.
Proof. reflexivity. Qed.

(** ** Game ids for the box score *)

Lemma digit_not_space c : Str.is_digit c = true -> StrMore.is_space c = false.
Proof.
  destruct c as [[] [] [] [] [] [] [] []]; vm_compute; congruence.
Qed.

Lemma digit_not_sign c :
  Str.is_digit c = true -> Ascii.eqb c "+" || Ascii.eqb c "-" = false.
Proof.
  destruct c as [[] [] [] [] [] [] [] []]; vm_compute; congruence.
Qed.

Lemma digit_lower c : Str.is_digit c = true -> Str.lower_char c = c.
Proof.
  destruct c as [[] [] [] [] [] [] [] []]; vm_compute; congruence.
Qed.

Lemma append_cons c (s1 s2 : string) :
  (String c s1 ++ s2)%string = String c (s1 ++ s2).
Proof. reflexivity. Qed.

Lemma append_nil (s : string) : (EmptyString ++ s)%string = s.
Proof. reflexivity. Qed.

Lemma append_assoc (s1 s2 s3 : string) :
  (s1 ++ (s2 ++ s3))%string = ((s1 ++ s2) ++ s3)%string.
Proof.
  induction s1 as [|c s1 IH]; [reflexivity|].
  rewrite !append_cons, IH. reflexivity.
Qed.

Lemma all_digits_app d1 d2 :
  StrMore.all_digits (d1 ++ d2) = StrMore.all_digits d1 && StrMore.all_digits d2.
Proof.
  induction d1 as [|c d1 IH]; [reflexivity|].
  rewrite append_cons. cbn [StrMore.all_digits]. rewrite IH. apply andb_assoc.
Qed.

Lemma all_digits_zeros n : StrMore.all_digits (StrMore.zeros n) = true.
Proof. induction n; simpl; auto. Qed.

Lemma length_zeros n : String.length (StrMore.zeros n) = n.
Proof. induction n; simpl; auto. Qed.

Lemma string_length_app (s1 s2 : string) :
  String.length (s1 ++ s2) = (String.length s1 + String.length s2)%nat.
Proof.
  induction s1 as [|c s1 IH]; [reflexivity|].
  rewrite append_cons. cbn [String.length]. rewrite IH. reflexivity.
Qed.

Lemma lstrip_no_leading_space c s :
  StrMore.is_space c = false -> StrMore.lstrip (String c s) = String c s.
Proof. intros H. simpl. rewrite H. reflexivity. Qed.

Lemma rstrip_last_not_space s :
  last_not_space s = true -> StrMore.rstrip s = s.
Proof.
  induction s as [|c s IH]; [reflexivity|].
  intros H. cbn [StrMore.rstrip]. destruct s as [|c' s'].
  - simpl in *. apply negb_true_iff in H. rewrite H. reflexivity.
  - rewrite IH by exact H. reflexivity.
Qed.

Lemma last_not_space_app s c :
  StrMore.is_space c = false -> last_not_space (s ++ String c EmptyString) = true.
Proof.
  intros Hc. induction s as [|a s IH].
  - rewrite append_nil. cbn. rewrite Hc. reflexivity.
  - rewrite append_cons. cbn [last_not_space].
    destruct (s ++ String c EmptyString)%string eqn:E; [|exact IH].
    destruct s; discriminate.
Qed.

Lemma last_not_space_digits d :
  StrMore.all_digits d = true -> last_not_space d = true.
Proof.
  induction d as [|c d IH]; [reflexivity|].
  cbn. intros H. apply andb_true_iff in H as [Hc Hd].
  destruct d as [|c' d']; [rewrite (digit_not_space c Hc); reflexivity|].
  apply IH. exact Hd.
Qed.

Lemma endswith_spec suffix s :
  StrMore.endswith suffix s = true <-> exists pre, s = (pre ++ suffix)%string.
Proof.
  induction s as [|c s IH]; cbn [StrMore.endswith].
  - rewrite orb_false_r, String.eqb_eq. split.
    + intros ->. exists EmptyString. reflexivity.
    + intros [pre H]. destruct pre; [rewrite append_nil in H; auto | discriminate].
  - rewrite orb_true_iff, String.eqb_eq, IH. split.
    + intros [->|[pre ->]]; [exists EmptyString | exists (String c pre)]; reflexivity.
    + intros [pre H]. destruct pre as [|p pre].
      * left. rewrite append_nil in H. auto.
      * right. rewrite append_cons in H. injection H as _ H. exists pre. exact H.
Qed.

Lemma substring_prefix (s1 s2 : string) :
  String.substring 0 (String.length s1) (s1 ++ s2) = s1.
Proof.
  induction s1 as [|c s1 IH].
  - rewrite append_nil. destruct s2; reflexivity.
  - rewrite append_cons. cbn [String.length String.substring]. rewrite IH.
    reflexivity.
Qed.

Lemma drop_last_app (s suffix : string) :
  StrMore.drop_last (String.length suffix) (s ++ suffix) = s.
Proof.
  unfold StrMore.drop_last. rewrite string_length_app.
  replace (String.length s + String.length suffix - String.length suffix)%nat
    with (String.length s) by lia.
  apply substring_prefix.
Qed.

Lemma zfill_length width s :
  String.length (StrMore.zfill width s) = Nat.max width (String.length s).
Proof.
  unfold StrMore.zfill.
  destruct (Nat.leb_spec width (String.length s)) as [H|H]; [lia|].
  destruct s as [|c s'].
  - rewrite length_zeros. simpl. lia.
  - destruct (Ascii.eqb c "+" || Ascii.eqb c "-").
    + cbn [String.length]. rewrite string_length_app, length_zeros.
      simpl in *. lia.
    + rewrite string_length_app, length_zeros. simpl in *. lia.
Qed.

Lemma lower_digits d : StrMore.all_digits d = true -> Str.lower d = d.
Proof.
  induction d as [|c d IH]; [reflexivity|].
  cbn. intros H. apply andb_true_iff in H as [Hc Hd].
  rewrite (digit_lower c Hc), IH by exact Hd. reflexivity.
Qed.

Lemma strip_digits_like s :
  match s with
  | EmptyString => True
  | String c _ => StrMore.is_space c = false
  end ->
  last_not_space s = true -> StrMore.strip s = s.
Proof.
  intros H1 H2. unfold StrMore.strip. destruct s as [|c s']; [reflexivity|].
  rewrite (lstrip_no_leading_space c s' H1). apply rstrip_last_not_space. exact H2.
Qed.

Lemma box_score_request_plain d :
  StrMore.all_digits d = true -> (1 <= String.length d <= 10)%nat ->
  box_score_request d
  = FetchBoxScore (StrMore.zeros (10 - String.length d) ++ d).
Proof.
  intros Hd Hlen. unfold box_score_request.
  assert (Hs : StrMore.strip d = d).
  { apply strip_digits_like; [|apply last_not_space_digits; exact Hd].
    destruct d as [|c d']; [exact I|]. cbn in Hd.
    apply andb_true_iff in Hd as [Hc _]. apply digit_not_space. exact Hc. }
  rewrite Hs.
  assert (He : StrMore.endswith ".0" d = false).
  { destruct (StrMore.endswith ".0" d) eqn:E; [|reflexivity].
    apply endswith_spec in E as [pre ->].
    rewrite all_digits_app in Hd. apply andb_true_iff in Hd as [_ Hd].
    discriminate. }
  rewrite He, (lower_digits d Hd).
  destruct (String.eqb_spec d "nan") as [->|_]; [discriminate|].
  destruct (String.eqb_spec d EmptyString) as [->|_]; [simpl in Hlen; lia|].
  f_equal. unfold StrMore.zfill.
  destruct (Nat.leb_spec 10 (String.length d)) as [H|H].
  - replace (10 - String.length d)%nat with 0%nat by lia. reflexivity.
  - destruct d as [|c d']; [simpl in Hlen; lia|].
    cbn in Hd. apply andb_true_iff in Hd as [Hc _].
    rewrite (digit_not_sign c Hc). reflexivity.
Qed.

(** X15. A game id of one to ten digits is padded with zeros on the left
    to ten characters before the box score is fetched; the same id with a
    trailing ".0", as a number turned into text carries, is repaired to the
    same ten characters; and a padded id is left as it is. *)
Theorem box_score_request_digits (d : string) :
  StrMore.all_digits d = true -> (1 <= String.length d <= 10)%nat ->
  let game_id := (StrMore.zeros (10 - String.length d) ++ d)%string in
  box_score_request d = FetchBoxScore game_id /\
  box_score_request (d ++ ".0") = FetchBoxScore game_id /\
  String.length game_id = 10%nat /\
  box_score_request game_id = FetchBoxScore game_id.
Proof.
  intros Hd Hlen game_id.
  assert (Hg : String.length game_id = 10%nat).
  { unfold game_id. rewrite string_length_app, length_zeros. lia. }
  split; [apply box_score_request_plain; assumption|].
  split; [|split; [exact Hg|]].
  - unfold box_score_request.
    assert (Hs : StrMore.strip (d ++ ".0") = (d ++ ".0")%string).
    { apply strip_digits_like.
      - destruct d as [|c d']; [simpl in Hlen; lia|]. cbn. cbn in Hd.
        apply andb_true_iff in Hd as [Hc _]. apply digit_not_space. exact Hc.
      - change ".0"%string with ("." ++ String "0" EmptyString)%string.
        rewrite append_assoc. apply last_not_space_app. reflexivity. }
    rewrite Hs.
    assert (He : StrMore.endswith ".0" (d ++ ".0") = true)
      by (apply endswith_spec; exists d; reflexivity).
    rewrite He. change 2%nat with (String.length ".0").
    rewrite drop_last_app.
    pose proof (box_score_request_plain d Hd Hlen) as Hp.
    unfold box_score_request in Hp.
    assert (Hs' : StrMore.strip d = d).
    { apply strip_digits_like; [|apply last_not_space_digits; exact Hd].
      destruct d as [|c d']; [exact I|]. cbn in Hd.
      apply andb_true_iff in Hd as [Hc _]. apply digit_not_space. exact Hc. }
    rewrite Hs' in Hp.
    destruct (StrMore.endswith ".0" d) eqn:E.
    + apply endswith_spec in E as [pre ->].
      rewrite all_digits_app in Hd. apply andb_true_iff in Hd as [_ Hd].
      discriminate.
    + exact Hp.
  - assert (Hgd : StrMore.all_digits game_id = true).
    { unfold game_id. rewrite all_digits_app, all_digits_zeros, Hd. reflexivity. }
    rewrite (box_score_request_plain game_id Hgd) by lia.
    rewrite Hg. reflexivity.
Qed.

Lemma box_score_request_digits_witness :
  box_score_request "22301195" = FetchBoxScore "0022301195" /\
  box_score_request "22301195.0" = FetchBoxScore "0022301195" /\
  String.length "0022301195" = 10%nat /\
  box_score_request "0022301195" = FetchBoxScore "0022301195".
Proof.
  apply (box_score_request_digits "22301195").
  - reflexivity.
  - simpl. lia.
Defined.

(** X16. What becomes of any game id: a box score is only ever fetched
    for an id of at least ten characters, the zero-filled form of a
    non-empty text that is not "nan" in any case; the text is the stripped
    input, without a trailing ".0" if it had one. No request is made
    exactly for an input that strips to nothing or to ".0", and an input
    is refused as invalid when the text is "nan" up to case. *)
Theorem box_score_request_cases (s : string) :
  let stripped := StrMore.strip s in
  exists core,
    (stripped = (core ++ ".0")%string \/
     (core = stripped /\ StrMore.endswith ".0" stripped = false)) /\
    match box_score_request s with
    | FetchBoxScore game_id =>
        game_id = StrMore.zfill 10 core /\
        (10 <= String.length game_id)%nat /\
        core <> EmptyString /\ Str.lower core <> "nan"
    | NoRequest => core = EmptyString
    | InvalidGameId => Str.lower core = "nan"
    end.
Proof.
  intros stripped. unfold box_score_request. fold stripped.
  destruct (StrMore.endswith ".0" stripped) eqn:E.
  - pose proof E as E'. apply endswith_spec in E' as [pre Hpre].
    exists pre. split; [left; exact Hpre|].
    rewrite Hpre. change 2%nat with (String.length ".0"). rewrite drop_last_app.
    destruct (String.eqb_spec (Str.lower pre) "nan"); [assumption|].
    destruct (String.eqb_spec pre EmptyString); [assumption|].
    repeat split; try assumption. rewrite zfill_length. lia.
  - exists stripped. split; [right; auto|].
    destruct (String.eqb_spec (Str.lower stripped) "nan"); [assumption|].
    destruct (String.eqb_spec stripped EmptyString); [assumption|].
    repeat split; try assumption. rewrite zfill_length. lia.
Qed.

Example box_score_request_examples :
  box_score_request "  NaN " = InvalidGameId /\
  box_score_request "   " = NoRequest /\
  box_score_request ".0" = NoRequest /\
  box_score_request " 42 " = FetchBoxScore "0000000042".
Proof. repeat split. Qed.

(** ** Chart files *)

Lemma slug_char_facts (c : ascii) :
  let c' := Str.lower_char (if Ascii.eqb c " " then "_"%char else c) in
  Ascii.eqb c' " " = false /\
  Str.is_upper c' = false /\
  Str.lower_char (if Ascii.eqb c' " " then "_"%char else c') = c'.
Proof.
  destruct c as [[] [] [] [] [] [] [] []]; vm_compute; auto.
Qed.

Lemma slug_cons c s :
  slug (String c s)
  = String (Str.lower_char (if Ascii.eqb c " " then "_"%char else c)) (slug s).
Proof. reflexivity. Qed.

Lemma slug_char_ascii (c : ascii) :
  (nat_of_ascii c <? 128)%nat = true ->
  (nat_of_ascii (Str.lower_char (if Ascii.eqb c " " then "_"%char else c)) <? 128)%nat
  = true.
Proof.
  destruct c as [[] [] [] [] [] [] [] []]; vm_compute; auto.
Qed.

(** X17. For a player or team name written in ASCII, the part of a chart
    file name made from it has no space and no upper-case letter, is as
    long as the name, and is left unchanged when made again: a name already
    in that form gives the same chart files. *)
Theorem slug_safe (name : string) :
  StrMore.isascii name = true ->
  StrMore.isascii (slug name) = true /\
  (forall c, In c (list_ascii_of_string (slug name)) ->
     c <> " "%char /\ Str.is_upper c = false) /\
  String.length (slug name) = String.length name /\
  slug (slug name) = slug name /\
  (forall season, chart_path (slug name) season = chart_path name season) /\
  (forall team season,
     StrMore.isascii team = true ->
     vs_chart_path (slug name) (slug team) season = vs_chart_path name team season).
Proof.
  intros Hascii.
  assert (Hid : forall s, slug (slug s) = slug s).
  { induction s as [|c s IH]; [reflexivity|].
    rewrite !slug_cons, IH.
    destruct (slug_char_facts c) as (_ & _ & ->). reflexivity. }
  split; [|split; [|split; [|split; [apply Hid|split]]]].
  - induction name as [|c s IH]; [reflexivity|].
    rewrite slug_cons. cbn [StrMore.isascii] in *.
    apply andb_true_iff in Hascii as [Hc Hs].
    rewrite (IH Hs), andb_true_r.
    rewrite (slug_char_ascii c Hc). reflexivity.
  - clear Hascii. induction name as [|c s IH]; [intros c []|].
    rewrite slug_cons. intros c' [<-|Hin]; [|apply IH; exact Hin].
    destruct (slug_char_facts c) as (H1 & H2 & _). split; [|exact H2].
    intros E. rewrite E in H1. discriminate.
  - clear Hascii. induction name as [|c s IH]; [reflexivity|].
    rewrite slug_cons. cbn [String.length]. rewrite IH. reflexivity.
  - intros season. unfold chart_path. rewrite Hid. reflexivity.
  - intros team season _. unfold vs_chart_path. rewrite !Hid. reflexivity.
Qed.

Lemma slug_safe_witness :
  String.length (slug "LeBron James") = String.length "LeBron James" /\
  slug (slug "LeBron James") = slug "LeBron James".
Proof.
  destruct (slug_safe "LeBron James" eq_refl) as (_ & _ & Hl & Hi & _).
  split; [exact Hl | exact Hi].
Defined.

Example chart_path_example :
  chart_path "Shai Gilgeous-Alexander" "2025-26"
  = "charts/shai_gilgeous-alexander_2025-26.png" /\
  vs_chart_path "LeBron James" "Trail Blazers" "2023-24"
  = "charts/lebron_james_vs_trail_blazers_2023-24.png".
Proof. split; reflexivity. Qed.

(** ** The printers *)

Lemma cv_value_exists (s : fval R) (avg : fval Q) : exists c, cv s avg = Value c.
Proof.
  unfold cv, gt0, truediv. destruct avg as [|a]; [eexists; reflexivity|].
  destruct (Qle_bool a 0) eqn:E1; cbn [negb]; [eexists; reflexivity|].
  destruct (Qeq_bool a 0) eqn:E2; [|eexists; reflexivity].
  apply Qeq_bool_iff in E2.
  assert (Hle : Qle_bool a 0 = true) by (apply Qle_bool_iff; lra).
  congruence.
Qed.

Lemma print_stat_lines_ok (st : Stats) (ls : list (string * StatKey)) :
  exists body,
    print_stat_lines st ls = (body, None) /\
    Forall2
      (fun line lk =>
         exists c,
           cv (std_devs st (snd lk)) (averages st (snd lk)) = Value c /\
           line = StatLine (fst lk) (averages st (snd lk)) (std_devs st (snd lk)) c)
      body ls.
Proof.
  induction ls as [|[label k] ls (body & E & HF)].
  - exists []. split; [reflexivity | constructor].
  - cbn [print_stat_lines].
    destruct (cv_value_exists (std_devs st k) (averages st k)) as [c Hc].
    rewrite Hc, E. eexists. split; [reflexivity|].
    constructor; [|exact HF]. exists c. split; [exact Hc | reflexivity].
Qed.

Section PrinterFacts.

Variable find_players_by_full_name : string -> list Player.
Variable find_team_by_abbreviation : string -> option Team.
Variable find_teams_by_full_name : string -> list Team.
Variable find_teams_by_nickname : string -> list Team.
Variable PlayerGameLog : Z -> string -> list GameRecord.
Variable other_exception : Call -> option string.

(** X18. What leaves the two printers of [formula.py], which catch
    [ValueError] only. An exception of another kind raised inside the
    helper, such as the regular-expression error of a search for the text
    "?", leaves the printer before a line is printed. A [ValueError] of the
    helper is printed as one line and nothing leaves. When the helper
    returns, the printer prints a header, the games played and the six stat
    lines in the order points, rebounds, assists, blocks, steals,
    three-pointers, each with its coefficient of variation, and nothing
    leaves: no coefficient of variation divides by zero. *)
Theorem printers_catch_errors (player season opponent : string) :
  match other_exception (SeasonStatsCall player season) with
  | Some text =>
      print_player_season_stats find_players_by_full_name PlayerGameLog
        other_exception player season = ([], Some (EscapedException text))
  | None =>
      match get_player_season_stats find_players_by_full_name PlayerGameLog
              player season with
      | Raise e =>
          print_player_season_stats find_players_by_full_name PlayerGameLog
            other_exception player season = ([ErrorLine e], None)
      | Ok st =>
          exists body,
            print_player_season_stats find_players_by_full_name PlayerGameLog
              other_exception player season
            = (HeaderLine player season :: GamesLine (games_played st) :: body,
               None) /\
            stat_lines_of st body /\ length body = 6%nat
      end
  end /\
  match other_exception (VsTeamStatsCall player season opponent) with
  | Some text =>
      print_player_vs_team_stats find_players_by_full_name
        find_team_by_abbreviation find_teams_by_full_name find_teams_by_nickname
        PlayerGameLog other_exception player season opponent
      = ([], Some (EscapedException text))
  | None =>
      match get_player_vs_team_stats find_players_by_full_name
              find_team_by_abbreviation find_teams_by_full_name
              find_teams_by_nickname PlayerGameLog player season opponent with
      | Raise e =>
          print_player_vs_team_stats find_players_by_full_name
            find_team_by_abbreviation find_teams_by_full_name
            find_teams_by_nickname PlayerGameLog other_exception
            player season opponent = ([ErrorLine e], None)
      | Ok st =>
          exists body,
            print_player_vs_team_stats find_players_by_full_name
              find_team_by_abbreviation find_teams_by_full_name
              find_teams_by_nickname PlayerGameLog other_exception
              player season opponent
            = (VsHeaderLine player opponent season :: GamesLine (games_played st)
                 :: body, None) /\
            stat_lines_of st body /\ length body = 6%nat
      end
  end.
Proof.
  split.
  - unfold print_player_season_stats.
    destruct (other_exception (SeasonStatsCall player season)); [reflexivity|].
    destruct (get_player_season_stats _ _ player season) as [st|e]; [|reflexivity].
    destruct (print_stat_lines_ok st stat_labels) as (body & E & HF).
    rewrite E. exists body. split; [reflexivity|]. split; [exact HF|].
    apply Forall2_length in HF. exact HF.
  - unfold print_player_vs_team_stats.
    destruct (other_exception (VsTeamStatsCall player season opponent));
      [reflexivity|].
    destruct (get_player_vs_team_stats _ _ _ _ _ player season opponent) as [st|e];
      [|reflexivity].
    destruct (print_stat_lines_ok st stat_labels) as (body & E & HF).
    rewrite E. exists body. split; [reflexivity|]. split; [exact HF|].
    apply Forall2_length in HF. exact HF.
Qed.

End PrinterFacts.

(** ** Percentiles, continued *)

Lemma merge_sort_perm_eq (data1 data2 : list Z) :
  data1 ≡ₚ data2 -> merge_sort Z.le data1 = merge_sort Z.le data2.
Proof.
  intros Hp. apply (StronglySorted_unique Z.le).
  - apply merge_sort_sorted.
  - apply merge_sort_sorted.
  - rewrite !merge_sort_Permutation. exact Hp.
Qed.

Lemma percentile_perm (data1 data2 : list Z) (q : Z) :
  data1 ≡ₚ data2 -> percentile data1 q = percentile data2 q.
Proof.
  intros Hp. unfold percentile. rewrite (merge_sort_perm_eq _ _ Hp). reflexivity.
Qed.

Lemma column_perm col (df1 df2 : list GameRecord) :
  df1 ≡ₚ df2 -> column col df1 ≡ₚ column col df2.
Proof. intros Hp. unfold column. apply Permutation_map. exact Hp. Qed.

Lemma rank_value_elem_of (arr : list Z) (i : Z) :
  (0 <= i <= Z.of_nat (length arr) - 1)%Z -> rank_value arr i ∈ arr.
Proof.
  intros H. unfold rank_value. apply list_elem_of_In, nth_In. lia.
Qed.

(** Every percentile lies within any bounds of the values. *)
Lemma percentile_within (data : list Z) (q lo hi : Z) :
  data <> [] -> (0 <= q <= 100)%Z -> differences_fit_int64 data ->
  (forall y, y ∈ data -> (lo <= y <= hi)%Z) ->
  exists v,
    percentile data q = Fin v /\ (inject_Z lo <= v)%Q /\ (v <= inject_Z hi)%Q.
Proof.
  intros Hne Hq Hfit Hb.
  destruct (percentile_interpolate data q Hne Hq Hfit) as (v & Ev & Hv).
  exists v. split; [exact Ev|].
  assert (Hn : (0 < length data)%nat) by (destruct data; simpl; [congruence | lia]).
  destruct (rank_of_bounds (length data) q Hn Hq) as [H0 H1].
  set (arr := merge_sort Z.le data) in *.
  assert (Hlen : length arr = length data) by apply merge_sort_length.
  assert (Hs : StronglySorted Z.le arr) by apply merge_sort_sorted.
  assert (H1' : (rank_of (length data) q <= inject_Z (Z.of_nat (length arr) - 1))%Q)
    by (rewrite Hlen; exact H1).
  destruct (interpolate_bounds arr _ Hs H0 H1') as [Hlow Hup].
  cbv zeta in Hlow, Hup.
  destruct (Qfloor_rank_bounds _ _ H0 H1') as [Hk0 Hk1].
  assert (Hin : forall i, (0 <= i <= Z.of_nat (length arr) - 1)%Z ->
                          (lo <= rank_value arr i <= hi)%Z).
  { intros i Hi. apply Hb. rewrite <- (merge_sort_Permutation Z.le data).
    apply rank_value_elem_of. exact Hi. }
  pose proof (Hin (Qfloor (rank_of (length data) q)) ltac:(lia)) as Ha.
  pose proof (Hin (Z.min (Qfloor (rank_of (length data) q) + 1)
                     (Z.of_nat (length arr) - 1)) ltac:(lia)) as Hb'.
  destruct Ha as [Ha _]. destruct Hb' as [_ Hb'].
  rewrite Zle_Qle in Ha, Hb'. rewrite Hv. split; lra.
Qed.

Lemma minimum_le x l y : y ∈ x :: l -> (minimum x l <= y)%Z.
Proof.
  induction l as [|z l IH]; simpl.
  - intros H. apply list_elem_of_singleton in H. lia.
  - intros H. apply elem_of_cons in H as [->|H].
    + assert (minimum x l <= x)%Z by (apply IH; left). lia.
    + apply elem_of_cons in H as [->|H]; [lia|].
      assert (minimum x l <= y)%Z by (apply IH; right; exact H). lia.
Qed.


(** X19. The percentiles of a column do not depend on the order of the
    games: two logs with the same games in another order give the same
    four percentiles under every stat name, while the raw values kept
    beside them stay in the order of the log. *)
Theorem percentiles_ignore_game_order
    (df1 df2 : list GameRecord) (player_name season : string)
    (opponent : option string) :
  df1 ≡ₚ df2 ->
  percentiles (percentile_result df1 player_name season opponent)
  = percentiles (percentile_result df2 player_name season opponent) /\
  pr_games_played (percentile_result df1 player_name season opponent)
  = pr_games_played (percentile_result df2 player_name season opponent) /\
  (forall stat name, (stat, name) ∈ zip stats stat_names ->
     raw_data (percentile_result df1 player_name season opponent) !! name
     = Some (map (cell stat) df1)).
Proof.
  intros Hp. split; [|split].
  - unfold percentile_result.
    cbn [stats stat_names zip_with fold_left percentile_step percentiles raw_data
         pr_games_played pr_player_name pr_season pr_opponent].
    rewrite !(percentile_perm (column _ df1) (column _ df2))
      by (apply column_perm; exact Hp).
    reflexivity.
  - change (length df1 = length df2). apply Permutation_length. exact Hp.
  - intros stat name Hin.
    apply (percentile_result_lookup df1 player_name season opponent stat name Hin).
Qed.

Lemma percentiles_ignore_game_order_witness :
  percentiles (percentile_result [Roster.g1; Roster.g2; Roster.g3]
                 "LeBron James" "2023-24" None)
  = percentiles (percentile_result [Roster.g3; Roster.g1; Roster.g2]
                   "LeBron James" "2023-24" None).
Proof.
  apply (percentiles_ignore_game_order [Roster.g1; Roster.g2; Roster.g3]
           [Roster.g3; Roster.g1; Roster.g2] "LeBron James" "2023-24" None).
  symmetry. apply (Permutation_cons_append [Roster.g1; Roster.g2] Roster.g3).
Defined.

(** X20. Every percentile from the 0th to the 100th of a non-empty column
    whose values differ by less than 2^63, so that no [int64] difference
    wraps, lies between the smallest and the largest value of the column. *)
Theorem percentile_between_min_max (x : Z) (data : list Z) (q : Z) :
  (0 <= q <= 100)%Z -> differences_fit_int64 (x :: data) ->
  fle (Fin (inject_Z (minimum x data))) (percentile (x :: data) q) /\
  fle (percentile (x :: data) q) (Fin (inject_Z (maximum x data))).
Proof.
  intros Hq Hfit.
  destruct (percentile_within (x :: data) q (minimum x data) (maximum x data))
    as (v & Ev & Hlo & Hhi); [discriminate | exact Hq | exact Hfit | |].
  - intros y Hy. split; [apply minimum_le | apply maximum_ge]; exact Hy.
  - rewrite Ev. split; assumption.
Qed.

Lemma percentile_between_min_max_witness :
  fle (Fin (inject_Z (minimum 40 [10; 30; 20]))) (percentile [40; 10; 30; 20] 25) /\
  fle (percentile [40; 10; 30; 20] 25) (Fin (inject_Z (maximum 40 [10; 30; 20]))).
Proof.
  apply (percentile_between_min_max 40 [10; 30; 20] 25).
  - lia.
  - apply in_int62_fit. reflexivity.
Defined.

(** X21. When every game has the same value in a column, in particular
    when there is a single game, every percentile of the column is that
    value. *)
Theorem percentile_of_constant (data : list Z) (x q : Z) :
  data <> [] -> (0 <= q <= 100)%Z ->
  (forall y, y ∈ data -> y = x) ->
  feq (percentile data q) (Fin (inject_Z x)).
Proof.
  intros Hne Hq Hc.
  destruct (percentile_neighbours data q Hne Hq) as (t & E & _ & Hk & Hk').
  cbv zeta in E, Hk, Hk'. rewrite E.
  set (k := Qfloor (rank_of (length data) q)) in *.
  set (k' := Z.min (k + 1) (Z.of_nat (length data) - 1)) in *.
  assert (Ha : rank_value (merge_sort Z.le data) k = x)
    by (apply Hc, sorted_rank_elem_of; lia).
  assert (Hb : rank_value (merge_sort Z.le data) k' = x)
    by (apply Hc, sorted_rank_elem_of; lia).
  rewrite Ha, Hb. cbn [feq]. apply lerp_same.
Qed.

Lemma percentile_of_constant_witness :
  feq (percentile [20] 75) (Fin (inject_Z 20)).
Proof.
  apply (percentile_of_constant [20] 20 75).
  - discriminate.
  - lia.
  - intros y Hy. apply list_elem_of_singleton in Hy. exact Hy.
Defined.

Lemma percentile_result_keys df player_name season opponent name :
  let r := percentile_result df player_name season opponent in
  (is_Some (percentiles r !! name) <-> name ∈ stat_names) /\
  (is_Some (raw_data r !! name) <-> name ∈ stat_names).
Proof.
  intros r. subst r. unfold percentile_result, stat_names at 2 4.
  cbn [stats stat_names zip_with fold_left percentile_step percentiles raw_data
       pr_games_played pr_player_name pr_season pr_opponent].
  rewrite !lookup_insert_is_Some, !lookup_empty, !elem_of_cons, elem_of_nil.
  split; split; intros H.
  1, 3: repeat match goal with
        | H : _ \/ _ |- _ => destruct H
        | H : _ /\ _ |- _ => destruct H
        | H : is_Some None |- _ => destruct H; discriminate
        end; subst; tauto.
  all: repeat match goal with
       | H : _ \/ _ |- _ => destruct H
       | H : False |- _ => destruct H
       end; subst;
       repeat first [left; reflexivity | right; split; [discriminate|]].
Qed.

(** X22. The percentile result has exactly the five stat names points,
    rebounds, assists, blocks and steals as keys, for the percentiles and
    for the raw values alike; three-pointers, which the statistics helper
    reports under "3pt", have no percentiles. *)
Theorem percentile_result_has_five_keys
    (df : list GameRecord) (player_name season : string)
    (opponent : option string) (name : string) :
  let r := percentile_result df player_name season opponent in
  (is_Some (percentiles r !! name) <-> name ∈ stat_names) /\
  (is_Some (raw_data r !! name) <-> name ∈ stat_names) /\
  percentiles r !! "3pt" = None /\
  raw_data r !! "3pt" = None /\
  stat_column threes = cFG3M /\ cFG3M ∉ stats.
Proof.
  intros r.
  destruct (percentile_result_keys df player_name season opponent name) as [H1 H2].
  split; [exact H1|]. split; [exact H2|].
  split; [reflexivity|]. split; [reflexivity|]. split; [reflexivity|].
  unfold stats. rewrite !elem_of_cons, elem_of_nil.
  intros [H|[H|[H|[H|[H|[]]]]]]; discriminate.
Qed.




(** ** Mean and standard deviation, continued *)






Lemma Qsum_perm (l1 l2 : list Q) : l1 ≡ₚ l2 -> (Qsum l1 == Qsum l2)%Q.
Proof.
  induction 1; simpl.
  - reflexivity.
  - fold (Qsum l). fold (Qsum l'). rewrite IHPermutation. reflexivity.
  - ring.
  - etransitivity; eassumption.
Qed.











Section FetchFacts.

Variable find_players_by_full_name : string -> list Player.
Variable find_team_by_abbreviation : string -> option Team.
Variable find_teams_by_full_name : string -> list Team.
Variable find_teams_by_nickname : string -> list Team.
Variable other_exception : Call -> option string.
Variable PlayerGameLog_season : Z -> string -> list GameRecord.
Variable PlayerGameLog_vs_team : Z -> string -> list GameRecord.
Variable PlayerGameLog_game_log : Z -> string -> list GameRecord.

Lemma sd_season_of player team season :
  sd_season (season_data_of find_players_by_full_name find_team_by_abbreviation
               find_teams_by_full_name find_teams_by_nickname other_exception
               PlayerGameLog_season PlayerGameLog_vs_team PlayerGameLog_game_log
               player team season) = season.
Proof.
  apply (season_data_stats find_players_by_full_name find_team_by_abbreviation
           find_teams_by_full_name find_teams_by_nickname other_exception
           PlayerGameLog_season PlayerGameLog_vs_team PlayerGameLog_game_log
           player team season).
Qed.

(** X28. The front end gathers one entry per selected season, the last
    selected first, and each entry is what the same player and team give
    for that season alone. *)
Theorem fetch_stats_thread_seasons (player team : string) (seasons : list string) :
  let all_data :=
    fetch_stats_thread find_players_by_full_name find_team_by_abbreviation
      find_teams_by_full_name find_teams_by_nickname other_exception
      PlayerGameLog_season PlayerGameLog_vs_team PlayerGameLog_game_log
      player team seasons in
  length all_data = length seasons /\
  map sd_season all_data = rev seasons /\
  (forall i season,
     seasons !! i = Some season -> (i < length seasons)%nat ->
     all_data !! (length seasons - 1 - i)%nat
     = Some (season_data_of find_players_by_full_name find_team_by_abbreviation
               find_teams_by_full_name find_teams_by_nickname other_exception
               PlayerGameLog_season PlayerGameLog_vs_team PlayerGameLog_game_log
               player team season)).
Proof.
  intros all_data. subst all_data. unfold fetch_stats_thread.
  split; [rewrite length_map, length_rev; reflexivity|]. split.
  - rewrite map_map. rewrite (map_ext _ (fun s => s)) by apply sd_season_of.
    apply map_id.
  - intros i season Hi Hlt.
    change (map ?f ?l) with (f <$> l). rewrite list_lookup_fmap.
    rewrite rev_alt. change (rev_append seasons []) with (reverse seasons).
    rewrite reverse_lookup by lia.
    replace (length seasons - S (length seasons - 1 - i))%nat with i by lia.
    rewrite Hi. reflexivity.
Qed.

End FetchFacts.
